(** * A shallow embedding of the trade simulator of stock-trading-simulator

    Money, prices and share counts are rationals ([Q]); a pandas column is a
    list with one entry per timestamp of the signal series.  Where pandas
    produces [NaN] in a column the cell is modelled as [option Q], [None]
    standing for [NaN]. *)

From Stdlib Require Import ZArith QArith Qround Qminmax List Bool Lia.
Import ListNotations.

Open Scope Q_scope.

(** Python's [int(x)] on a float: truncation toward zero. *)
Definition py_int (x : Q) : Z := Z.quot (Qnum x) (Zpos (Qden x)).

(** Python's [x // y] on floats: floor of the quotient. *)
Definition py_floordiv (x y : Q) : Q := inject_Z (Qfloor (x / y)).

(** ** [Simulator.execute_trade] (src/simulator.py, lines 106-173) *)
Module Simulator.

(** The columns of [results] that the loop reads and writes. *)
Record row := mkRow {
  Signal : Q;
  Close : Q;
  Shares : Q;
  Balance : Q;
  Transaction_Cost : Q;
  Portfolio_Value : Q;
  Position : Z;
  Buy_Price : option Q
}.

(** [Simulator(initial_balance, transaction_cost)] with the keyword
    arguments [take_profit] and [stop_loss] of [execute_trade]. *)
Record config := mkConfig {
  initial_balance : Q;
  transaction_cost : Q;
  take_profit : Q;
  stop_loss : Q
}.

(** The local variables [position_open] and [buy_price] of the loop. *)
Record loop_state := mkState {
  position_open : bool;
  buy_price : Q
}.

Definition init_state : loop_state := mkState false 0.

(** A row as the initialisation (lines 111-118) leaves it. *)
Definition fresh_row (cfg : config) (sig close : Q) : row :=
  mkRow sig close 0 (initial_balance cfg) 0 (initial_balance cfg) 0 None.

(** The exit test of line 144. *)
Definition exit_condition (cfg : config) (bp current_price : Q) : bool :=
  let price_change := (current_price - bp) / bp in
  Qle_bool (take_profit cfg) price_change
  || Qle_bool price_change (- stop_loss cfg).

(** Lines 125-153: the buy branch and the exit branch. [prev] is the
    previous row of [results] ([None] on the first date). *)
Definition trade (cfg : config) (st : loop_state) (prev : option row)
    (r : row) : loop_state * row :=
  let tc := transaction_cost cfg in
  if Qeq_bool (Signal r) 1 && negb (position_open st) then
    let shares := inject_Z (py_int ((Balance r - tc) / Close r)) in
    (mkState true (Close r),
     mkRow (Signal r) (Close r) shares
       (Balance r - (shares * Close r + tc)) tc
       (Portfolio_Value r) 1 (Some (Close r)))
  else if position_open st then
    let current_price := Close r in
    if exit_condition cfg (buy_price st) current_price then
      let shares := match prev with Some p => Shares p | None => 0 end in
      (mkState false (buy_price st),
       mkRow (Signal r) (Close r) 0
         (Balance r + inject_Z (py_int (shares * current_price - tc))) tc
         (Portfolio_Value r) 0 (Buy_Price r))
    else (st, r)
  else (st, r).

(** Lines 155-162: carry values forward from the previous row. *)
Definition carry_forward (cfg : config) (prev : option row) (r : row) : row :=
  match prev with
  | None => r
  | Some p =>
      mkRow (Signal r) (Close r)
        (if Qeq_bool (Shares r) 0 then Shares p else Shares r)
        (if Qeq_bool (Balance r) (initial_balance cfg) then Balance p
         else Balance r)
        (Transaction_Cost r) (Portfolio_Value r) (Position p) (Buy_Price r)
  end.

(** One iteration of [for date in results.index]. *)
Definition step (cfg : config) (st : loop_state) (prev : option row)
    (sig close : Q) : loop_state * row :=
  let '(st', r) := trade cfg st prev (fresh_row cfg sig close) in
  (st', carry_forward cfg prev r).

(** The loop: the state after each date, paired with the finished row. *)
Fixpoint run (cfg : config) (st : loop_state) (prev : option row)
    (inp : list (Q * Q)) : list (loop_state * row) :=
  match inp with
  | [] => []
  | (sig, close) :: rest =>
      let '(st', r) := step cfg st prev sig close in
      (st', r) :: run cfg st' (Some r) rest
  end.

(** Line 165. *)
Definition with_value (r : row) : row :=
  mkRow (Signal r) (Close r) (Shares r) (Balance r) (Transaction_Cost r)
    (Balance r + Shares r * Close r) (Position r) (Buy_Price r).

(** [execute_trade] on the aligned [(Signal, Close)] pairs. *)
Definition execute_trade (cfg : config) (inp : list (Q * Q)) : list row :=
  map (fun p => with_value (snd p)) (run cfg init_state None inp).

(** The position flags [position_open] after each date. *)
Definition open_flags (cfg : config) (inp : list (Q * Q)) : list bool :=
  map (fun p => position_open (fst p)) (run cfg init_state None inp).

End Simulator.

(** ** The vectorized backtests of [Portfolio] and [Backtester] *)

(** The columns both vectorized backtests build. [Balance] and
    [Portfolio_Value] may hold [NaN] ([None]): [shift(1)] has no value on
    the first date. *)
Record frame_row := mkFrameRow {
  F_Signal : Q;
  F_Close : Q;
  F_Position : Z;
  F_Shares : Q;
  F_Balance : option Q;
  F_Transaction_Cost : Q;
  F_Portfolio_Value : option Q
}.

(** [Series.shift(1)]. *)
Definition shift1 {A} (xs : list A) : list (option A) :=
  match xs with
  | [] => []
  | _ => None :: map Some (removelast xs)
  end.

(** [Series.ffill()] ([fillna(method='ffill')]), [last] being the last
    value seen. *)
Fixpoint ffill {A} (last : option A) (xs : list (option A)) : list (option A) :=
  match xs with
  | [] => []
  | Some v :: rest => Some v :: ffill (Some v) rest
  | None :: rest => last :: ffill last rest
  end.

(** Elementwise [+] of two float columns, [NaN] absorbing. *)
Definition nan_add (x y : option Q) : option Q :=
  match x, y with
  | Some a, Some b => Some (a + b)
  | _, _ => None
  end.

(** [results.loc[mask, col] = value] and the like: rewrite one column of
    the rows selected by a row predicate. *)
Definition set_where (p : frame_row -> bool) (f : frame_row -> frame_row)
    (rows : list frame_row) : list frame_row :=
  map (fun r => if p r then f r else r) rows.

Module Portfolio.

(** [Portfolio.__init__] and the attributes [execute_trade] updates. *)
Record portfolio := mkPortfolio {
  initial_balance : Q;
  balance : Q;
  position : Z;
  shares : Q;
  transaction_cost : Q
}.

Definition init (ib tc : Q) : portfolio := mkPortfolio ib ib 0 0 tc.

(** The dictionary returned by [execute_trade]. *)
Record report := mkReport {
  rep_balance : Q;
  rep_shares : Q;
  rep_position : Z;
  rep_total_value : Q
}.

(** [Portfolio.execute_trade] (src/portfolio.py, lines 19-47): the new
    attributes and the returned dictionary. *)
Definition execute_trade (self : portfolio) (price signal : Q)
    : portfolio * report :=
  let self' :=
    if Qeq_bool signal 1 && Z.eqb (position self) 0 then
      let max_shares := py_floordiv (balance self - transaction_cost self) price in
      if Qlt_le_dec 0 max_shares then
        mkPortfolio (initial_balance self)
          (balance self - (max_shares * price + transaction_cost self))
          1 max_shares (transaction_cost self)
      else self
    else if Qeq_bool signal (-1) && Z.eqb (position self) 1 then
      if Qlt_le_dec 0 (shares self) then
        mkPortfolio (initial_balance self)
          (balance self + (shares self * price - transaction_cost self))
          0 0 (transaction_cost self)
      else self
    else self in
  (self', mkReport (balance self') (shares self') (position self')
            (balance self' + shares self' * price)).

(** Calling [execute_trade] once per [(price, signal)] in order on one
    object: the reports, in order. *)
Fixpoint execute_trades (self : portfolio) (inp : list (Q * Q)) : list report :=
  match inp with
  | [] => []
  | (price, signal) :: rest =>
      let '(self', rep) := execute_trade self price signal in
      rep :: execute_trades self' rest
  end.

(** [Portfolio.backtest] (src/portfolio.py, lines 49-94) on the aligned
    [(Signal, Close)] pairs. *)
Definition backtest (self : portfolio) (inp : list (Q * Q)) : list frame_row :=
  let ib := initial_balance self in
  let tc := transaction_cost self in
  (* lines 65-69 *)
  let results := map (fun '(s, c) => mkFrameRow s c 0 0 (Some ib) 0 (Some ib)) inp in
  (* lines 72-73 *)
  let buy_signals := fun r => Qeq_bool (F_Signal r) 1 in
  let sell_signals := fun r => Qeq_bool (F_Signal r) (-1) in
  (* lines 76-77 *)
  let results := set_where buy_signals (fun r =>
        mkFrameRow (F_Signal r) (F_Close r) (F_Position r)
          (match F_Balance r with Some b => (b - tc) / F_Close r | None => 0 end)
          (F_Balance r) (F_Transaction_Cost r) (F_Portfolio_Value r)) results in
  let results := set_where sell_signals (fun r =>
        mkFrameRow (F_Signal r) (F_Close r) (F_Position r) 0
          (F_Balance r) (F_Transaction_Cost r) (F_Portfolio_Value r)) results in
  (* lines 80-82 *)
  let results := set_where buy_signals (fun r =>
        mkFrameRow (F_Signal r) (F_Close r) (F_Position r) (F_Shares r)
          (F_Balance r) tc (F_Portfolio_Value r)) results in
  let results := set_where buy_signals (fun r =>
        mkFrameRow (F_Signal r) (F_Close r) (F_Position r) (F_Shares r)
          (nan_add (F_Balance r) (Some (- (F_Shares r * F_Close r + tc))))
          (F_Transaction_Cost r) (F_Portfolio_Value r)) results in
  let prev_shares := shift1 (map F_Shares results) in
  let results := map (fun '(r, ps) =>
        if sell_signals r then
          mkFrameRow (F_Signal r) (F_Close r) (F_Position r) (F_Shares r)
            (nan_add (F_Balance r)
               (option_map (fun s => s * F_Close r - tc) ps))
            (F_Transaction_Cost r) (F_Portfolio_Value r)
        else r) (combine results prev_shares) in
  (* line 85 *)
  let position := map (fun r =>
        ((if buy_signals r then 1 else 0) - (if sell_signals r then 1 else 0))%Z)
        results in
  (* line 88 *)
  let position := map (fun z => if Z.eqb z 0 then None else Some z) position in
  let position := map (fun o => match o with Some z => z | None => 0%Z end)
                    (ffill None position) in
  let results := map (fun '(r, z) =>
        mkFrameRow (F_Signal r) (F_Close r) z (F_Shares r) (F_Balance r)
          (F_Transaction_Cost r) (F_Portfolio_Value r)) (combine results position) in
  (* line 89 *)
  let balance := ffill None (map F_Balance results) in
  let results := map (fun '(r, b) =>
        mkFrameRow (F_Signal r) (F_Close r) (F_Position r) (F_Shares r) b
          (F_Transaction_Cost r) (F_Portfolio_Value r)) (combine results balance) in
  (* line 92 *)
  map (fun r =>
        mkFrameRow (F_Signal r) (F_Close r) (F_Position r) (F_Shares r)
          (F_Balance r) (F_Transaction_Cost r)
          (nan_add (F_Balance r) (Some (F_Shares r * F_Close r)))) results.

End Portfolio.

Module Backtester.

(** [Backtester.__init__]. *)
Record backtester := mkBacktester {
  initial_balance : Q;
  transaction_cost : Q
}.

(** [Backtester.backtest] (src/backtester.py, lines 20-73) on the aligned
    [(Signal, Close)] pairs: the columns of lines 34-63.  The return columns
    of lines 66-71 are derived from these afterwards. *)
Definition backtest (self : backtester) (inp : list (Q * Q)) : list frame_row :=
  let ib := initial_balance self in
  let tc := transaction_cost self in
  (* lines 34-40 *)
  let results := map (fun '(s, c) => mkFrameRow s c 0 0 (Some ib) 0 (Some ib)) inp in
  (* lines 43-44 *)
  let buy_signals := fun r => Qeq_bool (F_Signal r) 1 in
  let sell_signals := fun r => Qeq_bool (F_Signal r) (-1) in
  (* lines 47-48 *)
  let results := set_where buy_signals (fun r =>
        mkFrameRow (F_Signal r) (F_Close r) (F_Position r)
          (match F_Balance r with Some b => (b - tc) / F_Close r | None => 0 end)
          (F_Balance r) (F_Transaction_Cost r) (F_Portfolio_Value r)) results in
  let results := set_where sell_signals (fun r =>
        mkFrameRow (F_Signal r) (F_Close r) (F_Position r) 0
          (F_Balance r) (F_Transaction_Cost r) (F_Portfolio_Value r)) results in
  (* lines 51-53 *)
  let results := set_where buy_signals (fun r =>
        mkFrameRow (F_Signal r) (F_Close r) (F_Position r) (F_Shares r)
          (F_Balance r) tc (F_Portfolio_Value r)) results in
  let results := set_where buy_signals (fun r =>
        mkFrameRow (F_Signal r) (F_Close r) (F_Position r) (F_Shares r)
          (nan_add (F_Balance r) (Some (- (F_Shares r * F_Close r + tc))))
          (F_Transaction_Cost r) (F_Portfolio_Value r)) results in
  let prev_shares := shift1 (map F_Shares results) in
  let results := map (fun '(r, ps) =>
        if sell_signals r then
          mkFrameRow (F_Signal r) (F_Close r) (F_Position r) (F_Shares r)
            (nan_add (F_Balance r)
               (option_map (fun s => s * F_Close r - tc) ps))
            (F_Transaction_Cost r) (F_Portfolio_Value r)
        else r) (combine results prev_shares) in
  (* line 56 *)
  let position := map (fun r =>
        ((if buy_signals r then 1 else 0) - (if sell_signals r then 1 else 0))%Z)
        results in
  (* line 59 *)
  let position := map (fun z => if Z.eqb z 0 then None else Some z) position in
  let position := map (fun o => match o with Some z => z | None => 0%Z end)
                    (ffill None position) in
  let results := map (fun '(r, z) =>
        mkFrameRow (F_Signal r) (F_Close r) z (F_Shares r) (F_Balance r)
          (F_Transaction_Cost r) (F_Portfolio_Value r)) (combine results position) in
  (* line 60 *)
  let balance := ffill None (map F_Balance results) in
  let results := map (fun '(r, b) =>
        mkFrameRow (F_Signal r) (F_Close r) (F_Position r) (F_Shares r) b
          (F_Transaction_Cost r) (F_Portfolio_Value r)) (combine results balance) in
  (* line 63 *)
  map (fun r =>
        mkFrameRow (F_Signal r) (F_Close r) (F_Position r) (F_Shares r)
          (F_Balance r) (F_Transaction_Cost r)
          (nan_add (F_Balance r) (Some (F_Shares r * F_Close r)))) results.

End Backtester.

(** ** [Simulator.calculate_metrics] (src/simulator.py, lines 175-213) on
    the [Portfolio_Value] column *)
Module Metrics.

(** [(last - initial_balance) / initial_balance * 100] (lines 185-189);
    [None] when [.iloc[-1]] raises on an empty column. *)
Definition total_return (initial_balance : Q) (pv : list Q) : option Q :=
  match rev pv with
  | [] => None
  | v :: _ => Some ((v - initial_balance) / initial_balance * 100)
  end.

Fixpoint pct_change_from (prev : Q) (xs : list Q) : list Q :=
  match xs with
  | [] => []
  | x :: rest => (x / prev - 1) :: pct_change_from x rest
  end.

(** [pct_change().fillna(0)] (line 193) on a column without zeros. *)
Definition daily_returns (pv : list Q) : list Q :=
  match pv with
  | [] => []
  | v :: rest => 0 :: pct_change_from v rest
  end.

(** [(mask).sum()] and [len(xs[mask])]. *)
Definition count (p : Q -> bool) (xs : list Q) : nat := length (filter p xs).

(** Lines 206-211. *)
Definition win_rate (pv : list Q) : Q :=
  let dr := daily_returns pv in
  let winning_trades := count (fun r => negb (Qle_bool r 0)) dr in
  let total_trades := count (fun r => negb (Qeq_bool r 0)) dr in
  if (0 <? total_trades)%nat
  then inject_Z (Z.of_nat winning_trades) / inject_Z (Z.of_nat total_trades) * 100
  else 0.

(** A float as numpy computes it here: a rational, an infinity or NaN. *)
Inductive float := Fin (q : Q) | PosInf | NegInf | NaN.

(** [a / b] on floats whose operands are finite; dividing by [0.0] gives
    an infinity of the numerator's sign, or NaN for [0.0 / 0.0]. *)
Definition fdiv (a b : Q) : float :=
  if Qeq_bool b 0 then
    if Qeq_bool a 0 then NaN
    else if Qle_bool a 0 then NegInf else PosInf
  else Fin (a / b).

(** [min] of two non-NaN floats. *)
Definition fmin (x y : float) : float :=
  match x, y with
  | NegInf, _ | _, NegInf => NegInf
  | PosInf, z | z, PosInf => z
  | Fin a, Fin b => Fin (Qmin a b)
  | NaN, z | z, NaN => z
  end.

(** One step of [Series.min()]: NaN values are skipped. *)
Definition nanmin_step (acc x : float) : float :=
  match x, acc with
  | NaN, _ => acc
  | _, NaN => x
  | _, _ => fmin acc x
  end.

(** [Series.min()], skipping NaN; NaN when nothing is left. *)
Definition nanmin (xs : list float) : float := fold_left nanmin_step xs NaN.

Definition fmul100 (x : float) : float :=
  match x with Fin q => Fin (q * 100) | y => y end.

Fixpoint running_max_from (m : Q) (xs : list Q) : list Q :=
  match xs with
  | [] => []
  | x :: rest => Qmax m x :: running_max_from (Qmax m x) rest
  end.

(** [expanding().max()] (line 202). *)
Definition rolling_max (pv : list Q) : list Q :=
  match pv with
  | [] => []
  | v :: rest => v :: running_max_from v rest
  end.

(** Line 203. *)
Definition drawdowns (pv : list Q) : list float :=
  map (fun '(v, m) => fdiv (v - m) m) (combine pv (rolling_max pv)).

(** Line 204. *)
Definition max_drawdown (pv : list Q) : float :=
  fmul100 (nanmin (drawdowns pv)).

(** [x <= 0] on a float: false on NaN. *)
Definition fle0 (x : float) : bool :=
  match x with Fin q => Qle_bool q 0 | NegInf => true | _ => false end.

End Metrics.

(** ** The Sharpe ratio of [Simulator.calculate_metrics] (lines 191-199),
    over the reals *)
From Stdlib Require Import Reals Qreals Lra.

Module Sharpe.
Local Open Scope R_scope.

Definition sum (xs : list R) : R := fold_right Rplus 0 xs.

(** [Series.mean()]. *)
Definition mean (xs : list R) : R := sum xs / INR (length xs).

(** [Series.std()] (sample deviation, [ddof=1]); [None] stands for the
    NaN it gives on fewer than two values. *)
Definition std (xs : list R) : option R :=
  if (length xs <? 2)%nat then None
  else Some (sqrt (sum (map (fun x => (x - mean xs) ^ 2) xs)
                   / INR (length xs - 1))).

Definition risk_free_rate : R := 1 / 100.

Definition excess_returns (daily_returns : list R) : list R :=
  map (fun r => r - risk_free_rate / 252) daily_returns.

(** Lines 192-199; [NaN > 0] is [False], so a NaN deviation gives [0]. *)
Definition sharpe_ratio (daily_returns : list R) : R :=
  let excess := excess_returns daily_returns in
  match std excess with
  | Some s => if Rlt_dec 0 s then sqrt 252 * mean excess / s else 0
  | None => 0
  end.

End Sharpe.

(** ** The Sharpe ratio of [Simulator.calculate_metrics] (lines 191-199)
    in binary64 floating point, as numpy and pandas compute it *)
From Stdlib Require PrimFloat.

Module FloatMetrics.
Import PrimFloat.
Local Open Scope float_scope.

(** A left-to-right running sum from [acc]. *)
Fixpoint seq_sum (acc : float) (xs : list float) : float :=
  match xs with
  | [] => acc
  | x :: rest => seq_sum (acc + x) rest
  end.

(** The main loop of numpy's [pairwise_sum]: [r[j] += a[i + j]] over the
    whole blocks of 8 after the first one. *)
Fixpoint add_blocks (fuel : nat) (r xs : list float) : list float * list float :=
  match fuel with
  | O => (r, xs)
  | S f =>
      if (8 <=? length xs)%nat
      then add_blocks f (map (fun p => fst p + snd p) (combine r (firstn 8 xs))) (skipn 8 xs)
      else (r, xs)
  end.

(** numpy's [pairwise_sum] for [8 <= n <= 128]: eight accumulators,
    combined as [((r0+r1)+(r2+r3))+((r4+r5)+(r6+r7))], then the remaining
    [n mod 8] values added in order. *)
Definition block_sum (xs : list float) : float :=
  let '(r, rest) := add_blocks (length xs) (firstn 8 xs) (skipn 8 xs) in
  match r with
  | [r0; r1; r2; r3; r4; r5; r6; r7] =>
      seq_sum (((r0 + r1) + (r2 + r3)) + ((r4 + r5) + (r6 + r7))) rest
  | _ => seq_sum 0 xs
  end.

(** numpy's [pairwise_sum] (umath/loops_utils.h): a plain loop below 8
    values, [block_sum] up to 128, and otherwise the two halves (the first
    rounded down to a multiple of 8) summed separately. *)
Fixpoint pairwise_sum_fuel (fuel : nat) (xs : list float) : float :=
  match fuel with
  | O => seq_sum 0 xs
  | S f =>
      let n := length xs in
      if (n <? 8)%nat then seq_sum 0 xs
      else if (n <=? 128)%nat then block_sum xs
      else
        let n2 := (n / 2 - (n / 2) mod 8)%nat in
        pairwise_sum_fuel f (firstn n2 xs) + pairwise_sum_fuel f (skipn n2 xs)
  end.

Definition pairwise_sum (xs : list float) : float := pairwise_sum_fuel (length xs) xs.

(** [values.sum()] on a contiguous float64 array: the reduction starts
    from the identity [0.0]. *)
Definition np_sum (xs : list float) : float := 0 + pairwise_sum xs.

(** A row count as a float64. *)
Fixpoint of_nat (n : nat) : float :=
  match n with
  | O => 0
  | S k => of_nat k + 1
  end.

(** [Series.mean()] (pandas [nanops.nanmean]): the sum over the count. *)
Definition nanmean (xs : list float) : float := np_sum xs / of_nat (length xs).

(** [Series.std()] (pandas [nanops.nanstd], [ddof=1]): the two-pass
    variance [((avg - values) ** 2).sum() / (count - 1)], [avg] being
    [values.sum() / count], then [np.sqrt].  On one value this is
    [sqrt(0/0)], NaN as in pandas; on none it is [-0.0] where pandas gives
    NaN, and both fail the test [> 0] of line 197. *)
Definition nanstd (xs : list float) : float :=
  let count := of_nat (length xs) in
  let avg := np_sum xs / count in
  let sqr := map (fun x => (avg - x) * (avg - x)) xs in
  sqrt (np_sum sqr / (count - 1)).

Fixpoint pct_change_from (prev : float) (xs : list float) : list float :=
  match xs with
  | [] => []
  | x :: rest => (x / prev - 1) :: pct_change_from x rest
  end.

(** [pct_change().fillna(0)] (line 193). *)
Definition daily_returns (pv : list float) : list float :=
  match pv with
  | [] => []
  | v :: rest => 0 :: pct_change_from v rest
  end.

(** The literal [0.01], the binary64 value nearest to 1/100. *)
Definition risk_free_rate : float := 1 / 100.

(** Line 194. *)
Definition excess_returns (daily_returns : list float) : list float :=
  map (fun r => r - risk_free_rate / 252) daily_returns.

(** Lines 195-199 on the [Portfolio_Value] column; [NaN > 0] is false. *)
Definition sharpe_ratio (pv : list float) : float :=
  let excess := excess_returns (daily_returns pv) in
  if 0 <? nanstd excess then sqrt 252 * nanmean excess / nanstd excess else 0.

End FloatMetrics.

(** ** Index alignment of the input series *)
Module Align.

(** Label lookup in a [Series] indexed by timestamps. *)
Fixpoint lookup (t : Z) (s : list (Z * Q)) : option Q :=
  match s with
  | [] => None
  | (t', v) :: rest => if Z.eqb t t' then Some v else lookup t rest
  end.

(** [Index.equals]: the same timestamps in the same order. *)
Definition same_index (signals prices : list (Z * Q)) : bool :=
  if list_eq_dec Z.eq_dec (map fst signals) (map fst prices) then true else false.

(** [Index.is_unique], negated. *)
Fixpoint has_duplicates (ts : list Z) : bool :=
  match ts with
  | [] => false
  | t :: rest => existsb (Z.eqb t) rest || has_duplicates rest
  end.

(** [results = signals.to_frame(name="Signal")] then
    [results["Close"] = df["Close"]] (src/simulator.py lines 111-112,
    src/backtester.py lines 33-34), as pandas' [DataFrame.__setitem__]
    does it: a row is a [(Signal, Close)] pair, [None] standing for NaN,
    and [None] for the whole result stands for the [ValueError] raised.
    - An empty frame first adopts the index of a non-empty price series
      ([_ensure_valid_index]); its [Signal] column becomes NaN there.
    - Equal indexes: the closes are copied by position
      ([_reindex_for_setitem]).
    - Otherwise the prices are reindexed on the signal timestamps: one row
      per signal timestamp, the close looked up by label, NaN where the
      prices lack it; reindexing prices with duplicate timestamps raises
      [ValueError]. *)
Definition align (signals prices : list (Z * Q)) : option (list (option Q * option Q)) :=
  match signals with
  | [] => Some (map (fun '(_, c) => (None, Some c)) prices)
  | _ :: _ =>
      if same_index signals prices
      then Some (map (fun '((_, s), (_, c)) => (Some s, Some c)) (combine signals prices))
      else if has_duplicates (map fst prices) then None
      else Some (map (fun '(t, s) => (Some s, lookup t prices)) signals)
  end.

End Align.

Module Returns.
(** [Series.cumprod()], from an accumulated product [acc]. *)
Fixpoint cumprod_from (acc : Q) (xs : list Q) : list Q :=
  match xs with
  | [] => []
  | x :: rest => (acc * x) :: cumprod_from (acc * x) rest
  end.

Definition cumprod (xs : list Q) : list Q := cumprod_from 1 xs.

(** src/simulator.py lines 168-169. *)
Definition Daily_Return (pv : list Q) : list Q := Metrics.daily_returns pv.

Definition Cumulative_Returns (pv : list Q) : list Q :=
  map (fun x => x - 1) (cumprod (map (fun r => 1 + r) (Daily_Return pv))).

(** src/backtester.py lines 66-71. *)
Definition Backtester_Returns (close : list Q) : list Q := Metrics.daily_returns close.

Definition Backtester_Cumulative_Returns (close : list Q) : list Q :=
  cumprod (map (fun r => 1 + r) (Backtester_Returns close)).

Definition Strategy_Cumulative_Returns (initial_balance : Q) (pv : list Q) : list Q :=
  map (fun v => v / initial_balance) pv.
End Returns.

Module BacktesterMetrics.
(** [Backtester.calculate_metrics] (src/backtester.py lines 75-113), on the
    columns [Signal], [Strategy_Returns] and [Strategy_Cumulative_Returns]. *)
Definition total_return (scr : list Q) : option Q :=
  match rev scr with
  | [] => None
  | v :: _ => Some ((v - 1) * 100)
  end.

Definition max_drawdown (scr : list Q) : Metrics.float :=
  Metrics.fmul100 (Metrics.nanmin (Metrics.drawdowns scr)).

Definition win_rate (signal strategy_returns : list Q) : Q :=
  let winning_trades := Metrics.count (fun r => negb (Qle_bool r 0)) strategy_returns in
  let total_trades := Metrics.count (fun s => Qeq_bool s 1 || Qeq_bool s (-1)) signal in
  if (0 <? total_trades)%nat
  then inject_Z (Z.of_nat winning_trades) / inject_Z (Z.of_nat total_trades) * 100
  else 0.
End BacktesterMetrics.

Module Strategies.

(** [close.rolling(window, min_periods=window).mean()] at row [i]: the mean
    of the [window] closes ending at row [i], NaN before [window] rows. *)
Definition rolling_mean_at (close : list Q) (window i : nat) : option Q :=
  if (window =? 0)%nat || (S i <? window)%nat then None
  else Some (fold_right Qplus 0 (firstn window (skipn (S i - window) close))
             / inject_Z (Z.of_nat window)).

(** [SMAIndicator(close=close, window=window).sma_indicator()]. *)
Definition sma (close : list Q) (window : nat) : list (option Q) :=
  map (rolling_mean_at close window) (seq 0 (length close)).

(** [a > b] and [a < b] on float columns: false when either side is NaN. *)
Definition opt_gt (a b : option Q) : bool :=
  match a, b with Some x, Some y => negb (Qle_bool x y) | _, _ => false end.

Definition opt_lt (a b : option Q) : bool :=
  match a, b with Some x, Some y => negb (Qle_bool y x) | _, _ => false end.

(** [signal[mask] = v]. *)
Definition assign (mask : list bool) (v : Q) (signal : list Q) : list Q :=
  map (fun '((m, s) : bool * Q) => if m then v else s) (combine mask signal).

(** src/strategies.py lines 7-29. *)
Definition moving_average_crossover (close : list Q) (short_window long_window : nat) : list Q :=
  let short_ma := sma close short_window in
  let long_ma := sma close long_window in
  let signal := repeat 0 (length close) in
  let signal := assign (map (fun '((s, l) : option Q * option Q) => opt_gt s l) (combine short_ma long_ma)) 1 signal in
  assign (map (fun '((s, l) : option Q * option Q) => opt_lt s l) (combine short_ma long_ma)) (-1) signal.

(** src/strategies.py lines 104-128. *)
Definition triple_ma_strategy (close : list Q) (short_window mid_window long_window : nat) : list Q :=
  let short_ma := sma close short_window in
  let mid_ma := sma close mid_window in
  let long_ma := sma close long_window in
  let mas := combine (combine short_ma mid_ma) long_ma in
  let signal := repeat 0 (length close) in
  let signal := assign (map (fun '((s, m, l) : option Q * option Q * option Q) => opt_gt s m && opt_gt m l) mas) 1 signal in
  assign (map (fun '((s, m, l) : option Q * option Q * option Q) => opt_lt s m && opt_lt m l) mas) (-1) signal.

End Strategies.

Module MeanReversion.

(** [close.rolling(window=window).std()] at row [i]: sample deviation
    ([ddof=1]) of the last [window] closes, NaN before [window] rows and on a
    window of one value. *)
Definition rolling_std_at (close : list Q) (window i : nat) : option R :=
  if (window =? 0)%nat || (S i <? window)%nat then None
  else Sharpe.std (map Q2R (firstn window (skipn (S i - window) close))).

Definition opt_add (a b : option R) : option R :=
  match a, b with Some x, Some y => Some (x + y)%R | _, _ => None end.

Definition opt_sub (a b : option R) : option R :=
  match a, b with Some x, Some y => Some (x - y)%R | _, _ => None end.

Definition opt_scale (a : option R) (k : R) : option R :=
  match a with Some x => Some (x * k)%R | None => None end.

(** [c < band] and [c > band]: false on a NaN band. *)
Definition lt_band (c : Q) (band : option R) : bool :=
  match band with Some b => if Rlt_dec (Q2R c) b then true else false | None => false end.

Definition gt_band (c : Q) (band : option R) : bool :=
  match band with Some b => if Rlt_dec b (Q2R c) then true else false | None => false end.

(** src/strategies.py lines 130-155. *)
Definition mean_reversion_strategy (close : list Q) (window : nat) (std_dev : R) : list Q :=
  let ma := map (option_map Q2R) (Strategies.sma close window) in
  let std := map (rolling_std_at close window) (seq 0 (length close)) in
  let upper_band := map (fun '((m, s) : option R * option R) => opt_add m (opt_scale s std_dev)) (combine ma std) in
  let lower_band := map (fun '((m, s) : option R * option R) => opt_sub m (opt_scale s std_dev)) (combine ma std) in
  let signal := repeat 0 (length close) in
  let signal := Strategies.assign (map (fun '((c, b) : Q * option R) => lt_band c b) (combine close lower_band)) 1 signal in
  Strategies.assign (map (fun '((c, b) : Q * option R) => gt_band c b) (combine close upper_band)) (-1) signal.

End MeanReversion.

Module Utils.

(** [calculate_max_drawdown] (src/utils.py lines 34-47); [cummax()] is the
    running maximum [Metrics.rolling_max]. *)
Definition calculate_max_drawdown (returns : list Q) : Metrics.float :=
  Metrics.max_drawdown (Returns.cumprod (map (fun r => 1 + r) returns)).

(** [Series.diff()]: NaN on the first row. *)
Fixpoint diff_from (prev : Q) (xs : list Q) : list (option Q) :=
  match xs with
  | [] => []
  | x :: rest => Some (x - prev) :: diff_from x rest
  end.

Definition diff (xs : list Q) : list (option Q) :=
  match xs with
  | [] => []
  | x :: rest => None :: diff_from x rest
  end.

(** [d != 0]: true on NaN. *)
Definition ne0 (d : option Q) : bool :=
  match d with None => true | Some v => negb (Qeq_bool v 0) end.

(** [analyze_win_rate] (src/utils.py lines 332-345). *)
Definition analyze_win_rate (strategy_returns position : list Q) : Q :=
  let winning_trades := Metrics.count (fun r => negb (Qle_bool r 0)) strategy_returns in
  let total_trades := length (filter ne0 (diff position)) in
  if (0 <? total_trades)%nat
  then inject_Z (Z.of_nat winning_trades) / inject_Z (Z.of_nat total_trades) * 100
  else 0.

(** The frame [apply_stop_loss] returns: the rows with their [Signal]
    updated, the [Stop_Loss_Price] column, and the [Stop_Loss_Triggered]
    column, absent when the loop never assigns it. *)
Record stop_loss_result := mkStopLossResult {
  SL_rows : list frame_row;
  Stop_Loss_Price : list Q;
  Stop_Loss_Triggered : option (list (option bool))
}.

Definition set_signal (r : frame_row) (s : Q) : frame_row :=
  mkFrameRow s (F_Close r) (F_Position r) (F_Shares r) (F_Balance r)
    (F_Transaction_Cost r) (F_Portfolio_Value r).

(** One iteration of the loop of lines 360-366 on a row [i >= 1]: the new
    row and the value it writes to [Stop_Loss_Triggered] ([None] when it
    writes nothing). *)
Definition stop_loss_row (r : frame_row) (stop_loss_price : Q) : frame_row * option bool :=
  if (F_Position r =? 1)%Z then
    if negb (Qle_bool stop_loss_price (F_Close r)) then (set_signal r (-1), Some true)
    else (r, Some false)
  else (r, None).

(** [apply_stop_loss] (src/utils.py lines 347-368). *)
Definition apply_stop_loss (results : list frame_row) (stop_loss_pct : Q) : stop_loss_result :=
  let prices := map (fun r => F_Close r * (1 - stop_loss_pct)) results in
  match results, prices with
  | r0 :: rest, p0 :: ps =>
      let steps := map (fun '(r, p) => stop_loss_row r p) (combine rest ps) in
      let triggered := None :: map snd steps in
      mkStopLossResult (r0 :: map fst steps) prices
        (if existsb (fun t => match t with Some _ => true | None => false end) triggered
         then Some triggered else None)
  | _, _ => mkStopLossResult results prices None
  end.

(** [preprocess_data] (src/utils.py lines 222-238): [fillna(method='ffill')]
    on every column. *)
Definition preprocess_data (data : list (list (option Q))) : list (list (option Q)) :=
  map (ffill None) data.

End Utils.

Module UtilsR.
Local Open Scope R_scope.

(** A float of the ratios of src/utils.py: a real, an infinity or NaN. *)
Inductive rfloat := RFin (x : R) | RPosInf | RNegInf | RNaN.

(** [a / b] on finite floats, as [Metrics.fdiv]. *)
Definition rdiv (a b : R) : rfloat :=
  if Req_dec_T b 0 then
    if Req_dec_T a 0 then RNaN else if Rle_dec a 0 then RNegInf else RPosInf
  else RFin (a / b).

(** [x / y] on any two floats (a zero divisor counts as [+0.0]). *)
Definition fdiv (x y : rfloat) : rfloat :=
  match x, y with
  | RNaN, _ | _, RNaN => RNaN
  | RFin a, RFin b => rdiv a b
  | RFin _, (RPosInf | RNegInf) => RFin 0
  | (RPosInf | RNegInf), (RPosInf | RNegInf) => RNaN
  | RPosInf, RFin b => if Rle_dec 0 b then RPosInf else RNegInf
  | RNegInf, RFin b => if Rle_dec 0 b then RNegInf else RPosInf
  end.

Definition of_float (x : Metrics.float) : rfloat :=
  match x with
  | Metrics.Fin q => RFin (Q2R q)
  | Metrics.PosInf => RPosInf
  | Metrics.NegInf => RNegInf
  | Metrics.NaN => RNaN
  end.

(** [np.mean] and [Series.mean()]: NaN on an empty series. *)
Definition np_mean (xs : list R) : option R :=
  match xs with [] => None | _ => Some (Sharpe.mean xs) end.

(** [calculate_sharpe_ratio] (src/utils.py lines 20-32), without the guard
    of the Simulator: [std()] is NaN below two values. *)
Definition calculate_sharpe_ratio (returns : list R) : rfloat :=
  let excess_returns := Sharpe.excess_returns returns in
  match np_mean excess_returns, Sharpe.std excess_returns with
  | Some m, Some s => rdiv (sqrt 252 * m) s
  | _, _ => RNaN
  end.

(** [calculate_sortino_ratio] (src/utils.py lines 49-63). *)
Definition calculate_sortino_ratio (returns : list R) (target_return : R) : rfloat :=
  match np_mean (map (fun r => Rmin (r - target_return) 0 ^ 2) returns) with
  | None => RNaN
  | Some m =>
      let downside_deviation := sqrt m in
      if Req_dec_T downside_deviation 0 then RPosInf
      else match np_mean returns with
           | Some mu => rdiv (mu - target_return) downside_deviation
           | None => RNaN
           end
  end.

(** [b ** e] on floats, for an exponent [e > 0]: a negative base has a
    real power only for an integral exponent. *)
Definition float_pow (b e : R) : rfloat :=
  if Rlt_dec 0 b then RFin (Rpower b e)
  else if Req_dec_T b 0 then RFin 0
  else if Req_dec_T (frac_part e) 0 then RFin (b ^ Z.to_nat (Int_part e))
  else RNaN.

Definition fsub1 (x : rfloat) : rfloat :=
  match x with RFin a => RFin (a - 1) | y => y end.

(** [calculate_calmar_ratio] (src/utils.py lines 65-78); [None] is the
    [ZeroDivisionError] of [252 / len(returns)]. *)
Definition calculate_calmar_ratio (returns : list Q) : option rfloat :=
  match length returns with
  | O => None
  | n =>
      let annualized_return :=
        fsub1 (float_pow (fold_right Rmult 1 (map (fun r => 1 + Q2R r) returns)) (252 / INR n)) in
      let max_drawdown := of_float (Utils.calculate_max_drawdown returns) in
      Some (fdiv annualized_return (fdiv max_drawdown (RFin 100)))
  end.

End UtilsR.

(** * Properties *)

(** [Simulator()] with the defaults of [__init__] and [execute_trade]. *)
Definition default_simulator : Simulator.config :=
  Simulator.mkConfig 10000 10 (5 # 100) (2 # 100).

Definition dummy_row : Simulator.row := Simulator.fresh_row default_simulator 0 0.

Definition dflt_state : Simulator.loop_state * Simulator.row :=
  (Simulator.init_state, dummy_row).

(** The number of closed trades of a run: the dates at which the position
    goes from open to flat (the spec's per-trade count). *)
Fixpoint exits (was_open : bool) (flags : list bool) : nat :=
  match flags with
  | [] => O
  | f :: rest => ((if was_open && negb f then 1 else 0) + exits f rest)%nat
  end.

Definition closed_trades (flags : list bool) : nat := exits false flags.

(** The number of consecutive pairs [(a, b)] of a column with [rel a b]. *)
Fixpoint count_moves (rel : Q -> Q -> bool) (prev : Q) (xs : list Q) : nat :=
  match xs with
  | [] => O
  | x :: rest => ((if rel prev x then 1 else 0) + count_moves rel x rest)%nat
  end.

(** Dates whose portfolio value rose, and dates whose value changed. *)
Definition rises (pv : list Q) : nat :=
  match pv with [] => O | v :: rest => count_moves (fun a b => negb (Qle_bool b a)) v rest end.

Definition changes (pv : list Q) : nat :=
  match pv with [] => O | v :: rest => count_moves (fun a b => negb (Qeq_bool a b)) v rest end.

Definition pv_example : list Q := [9990; 10089].

Definition signals_example : list (Z * Q) := [(1%Z, 0); (2%Z, 0)].
Definition prices_example : list (Z * Q) := [(1%Z, 100); (2%Z, 100); (3%Z, 100)].

(** Thirteen Hold rows at a close of 100. *)
Definition flat_rows : list (Q * Q) := repeat (0, 100) 13.

(** A row with a positive close, no negative cash or shares, and some cash
    or some shares. *)
Definition solvent (r : Simulator.row) : Prop :=
  0 < Simulator.Close r /\ 0 <= Simulator.Balance r /\ 0 <= Simulator.Shares r
  /\ (0 < Simulator.Balance r \/ 0 < Simulator.Shares r).

Definition prev_solvent (prev : option Simulator.row) : Prop :=
  match prev with None => True | Some p => solvent p end.

Definition fin_le0 (x : Metrics.float) : Prop := exists b, x = Metrics.Fin b /\ b <= 0.
Definition fin_eq0 (x : Metrics.float) : Prop := exists b, x = Metrics.Fin b /\ b == 0.

(** Non-decreasing from a previous value on. *)
Fixpoint nondecreasing_from (prev : Q) (xs : list Q) : Prop :=
  match xs with
  | [] => True
  | x :: rest => prev <= x /\ nondecreasing_from x rest
  end.

Definition nondecreasing (pv : list Q) : Prop :=
  match pv with [] => True | v :: rest => nondecreasing_from v rest end.

Definition scenario_B : list (Q * Q) := [(1, 100); (0, 110); (-1, 90)].

(** The state of a [Portfolio] after a sequence of [execute_trade] calls. *)
Fixpoint run_portfolio (self : Portfolio.portfolio) (inp : list (Q * Q)) : Portfolio.portfolio :=
  match inp with
  | [] => self
  | (price, signal) :: rest => run_portfolio (fst (Portfolio.execute_trade self price signal)) rest
  end.

(** A position flag that matches a whole, positive share count. *)
Definition pf_consistent (pos : Z) (sh : Q) : Prop :=
  (pos = 0%Z /\ sh == 0)
  \/ (pos = 1%Z /\ 0 < sh /\ sh == inject_Z (Qfloor sh)).

Definition portfolio_consistent (p : Portfolio.portfolio) : Prop :=
  pf_consistent (Portfolio.position p) (Portfolio.shares p).

Definition report_consistent (rp : Portfolio.report) : Prop :=
  pf_consistent (Portfolio.rep_position rp) (Portfolio.rep_shares rp).

(** The marked-to-market value of a portfolio at a price. *)
Definition pf_value (p : Portfolio.portfolio) (price : Q) : Q :=
  Portfolio.balance p + Portfolio.shares p * price.

Definition without_signal (r : Simulator.row) : Simulator.row :=
  Simulator.mkRow 0 (Simulator.Close r) (Simulator.Shares r) (Simulator.Balance r)
    (Simulator.Transaction_Cost r) (Simulator.Portfolio_Value r)
    (Simulator.Position r) (Simulator.Buy_Price r).

Definition is_buy (x : Q * Q) : bool := Qeq_bool (fst x) 1.

(** The direction of the latest Buy ([1]) or Sell ([-1]) signal at or
    before each date, [cur] before the first. *)
Fixpoint latest_direction (cur : Z) (sigs : list Q) : list Z :=
  match sigs with
  | [] => []
  | s :: rest =>
      let d := if Qeq_bool s 1 then 1%Z else if Qeq_bool s (-1) then (-1)%Z else cur in
      d :: latest_direction d rest
  end.

Definition opt_Qeq (x y : option Q) : Prop :=
  match x, y with
  | Some a, Some b => a == b
  | None, None => True
  | _, _ => False
  end.

(** Equality of floats, numbers compared as rationals. *)
Definition feq (x y : Metrics.float) : Prop :=
  match x, y with
  | Metrics.Fin a, Metrics.Fin b => a == b
  | Metrics.PosInf, Metrics.PosInf | Metrics.NegInf, Metrics.NegInf
  | Metrics.NaN, Metrics.NaN => True
  | _, _ => False
  end.

Definition trade_signals (signal : list Q) : nat :=
  Metrics.count (fun s => Qeq_bool s 1 || Qeq_bool s (-1)) signal.

Definition positive_returns (sr : list Q) : nat :=
  Metrics.count (fun r => negb (Qle_bool r 0)) sr.

Definition crossover_value (s l : option Q) : Q :=
  if Strategies.opt_lt s l then -1 else if Strategies.opt_gt s l then 1 else 0.

Definition triple_value (s m l : option Q) : Q :=
  if Strategies.opt_lt s m && Strategies.opt_lt m l then -1
  else if Strategies.opt_gt s m && Strategies.opt_gt m l then 1 else 0.

(** The last value present in a column prefix, [start] if there is none. *)
Definition last_present {A} (start : option A) (xs : list (option A)) : option A :=
  fold_left (fun acc x => match x with Some v => Some v | None => acc end) xs start.

(** A long position through falling closes. *)
Definition falling_long_rows : list frame_row :=
  [mkFrameRow 1 100 1 0 None 0 None; mkFrameRow 0 90 1 0 None 0 None; mkFrameRow 0 80 1 0 None 0 None].

(** Every row of the Simulator trace is a [with_value] row. *)
Lemma execute_trade_rows (cfg : Simulator.config) (inp : list (Q * Q)) (r : Simulator.row) :
  In r (Simulator.execute_trade cfg inp) ->
  exists r0, r = Simulator.with_value r0.
Proof.
  unfold Simulator.execute_trade. intros H.
  apply in_map_iff in H. destruct H as [p [Hp _]]. eauto.
Qed.

(** ** C1 *)

(** C1 (failing input): with the default [Simulator()], signals [Hold, Buy]
    at closes [100, 100], the buy row holds 99 shares while its [Position]
    is 0, although the loop's [position_open] is true after it: the
    carry-forward of line 162 overwrites the [Position = 1] of line 134. *)
Theorem C1_buy_row_position_overwritten :
  let r := nth 1 (Simulator.execute_trade default_simulator [(0, 100); (1, 100)]) dummy_row in
  Simulator.Shares r == 99 /\ Simulator.Position r = 0%Z
  /\ Simulator.open_flags default_simulator [(0, 100); (1, 100)] = [false; true].
Proof. vm_compute. repeat split; reflexivity. Qed.

(** ** C2 *)

(** C2: every row of the [Simulator.execute_trade] trace has
    [Portfolio_Value = Balance + Shares * Close]; every row of
    [Backtester.backtest] has [Portfolio_Value = Balance + Shares * Close],
    NaN where [Balance] is NaN. *)
Theorem C2_portfolio_value_identity :
  (forall cfg inp r, In r (Simulator.execute_trade cfg inp) ->
     Simulator.Portfolio_Value r
     = Simulator.Balance r + Simulator.Shares r * Simulator.Close r)
  /\ (forall self inp fr, In fr (Backtester.backtest self inp) ->
     F_Portfolio_Value fr = nan_add (F_Balance fr) (Some (F_Shares fr * F_Close fr))).
Proof.
  split.
  - intros cfg inp r H. apply execute_trade_rows in H.
    destruct H as [r0 ->]. reflexivity.
  - intros self inp fr H. unfold Backtester.backtest in H. cbv zeta in H.
    apply in_map_iff in H. destruct H as [r [<- _]]. reflexivity.
Qed.

Lemma C2_witness :
  In (nth 0 (Simulator.execute_trade default_simulator [(1, 100)]) dummy_row)
     (Simulator.execute_trade default_simulator [(1, 100)])
  /\ Simulator.Portfolio_Value (nth 0 (Simulator.execute_trade default_simulator [(1, 100)]) dummy_row)
     = Simulator.Balance (nth 0 (Simulator.execute_trade default_simulator [(1, 100)]) dummy_row)
       + Simulator.Shares (nth 0 (Simulator.execute_trade default_simulator [(1, 100)]) dummy_row)
         * Simulator.Close (nth 0 (Simulator.execute_trade default_simulator [(1, 100)]) dummy_row).
Proof.
  assert (H : In (nth 0 (Simulator.execute_trade default_simulator [(1, 100)]) dummy_row)
                 (Simulator.execute_trade default_simulator [(1, 100)]))
    by (left; reflexivity).
  split; [exact H | exact (proj1 C2_portfolio_value_identity _ _ _ H)].
Defined.

(** ** C3 *)

(** C3 (failing input): [Simulator(initial_balance=5, transaction_cost=10)]
    with a Buy at close 3 computes [int((5 - 10) / 3) = -1] shares and does
    not reject the buy: the balance becomes [5 - (-3 + 10) = -2].  Its
    sibling [Portfolio.execute_trade] rejects the same buy ([max_shares > 0]
    fails) and keeps the balance at 5. *)
Theorem C3_negative_cash :
  let r := nth 0 (Simulator.execute_trade
                    (Simulator.mkConfig 5 10 (5 # 100) (2 # 100)) [(1, 3)]) dummy_row in
  Simulator.Shares r == -1 /\ Simulator.Balance r == -2 /\ Simulator.Balance r < 0
  /\ Portfolio.execute_trades (Portfolio.init 5 10) [(3, 1)]
     = [Portfolio.mkReport 5 0 0 5].
Proof. vm_compute. repeat split; try reflexivity; discriminate. Qed.

(** ** C4 *)

(** C4 (counterexample): in Scenario B both [Simulator.execute_trade] and
    [Portfolio.execute_trade] buy 99 whole shares, not 99.9. *)
Lemma C4_whole_shares :
  ~ (Simulator.Shares (nth 0 (Simulator.execute_trade default_simulator
                                [(1, 100); (0, 110); (-1, 90)]) dummy_row) == 999 # 10)
  /\ ~ (Portfolio.rep_shares (nth 0 (Portfolio.execute_trades (Portfolio.init 10000 10)
                                [(100, 1); (110, 0); (90, -1)])
                                (Portfolio.mkReport 0 0 0 0)) == 999 # 10).
Proof. vm_compute. split; discriminate. Qed.

(** C4 (amended): a [Portfolio(10000, 10)] stepped with [execute_trade] on
    (100, Buy), (110, Hold), (90, Sell) buys [(10000 - 10) // 100 = 99]
    shares, leaving balance [10000 - 99*100 - 10 = 90]; the sell at 90
    leaves balance [90 + 99*90 - 10 = 8990] and no shares, and the return
    of the final total value is [(8990 - 10000) / 10000 * 100 = -10.1]. *)
Theorem C4_scenario_B_whole_shares :
  let reps := Portfolio.execute_trades (Portfolio.init 10000 10)
                [(100, 1); (110, 0); (90, -1)] in
  map (fun rp => (Portfolio.rep_shares rp, Portfolio.rep_balance rp,
                  Portfolio.rep_position rp)) reps
  = [(99, 90, 1%Z); (99, 90, 1%Z); (0, 8990, 0%Z)]
  /\ map Portfolio.rep_total_value reps = [9990; 10980; 8990]
  /\ option_map Qred (Metrics.total_return 10000 (map Portfolio.rep_total_value reps))
     = Some (Qred (- (101 # 10))).
Proof. vm_compute. repeat split; reflexivity. Qed.

(** ** C10 *)

(** C10: [Backtester.backtest] and [Portfolio.backtest] build the same
    Signal, Close, Position, Shares, Balance, Transaction_Cost and
    Portfolio_Value columns for the same balance, cost and inputs. *)
Theorem C10_backtests_agree (p : Portfolio.portfolio) (inp : list (Q * Q)) :
  Backtester.backtest
    (Backtester.mkBacktester (Portfolio.initial_balance p) (Portfolio.transaction_cost p)) inp
  = Portfolio.backtest p inp.
Proof. reflexivity. Qed.

(** ** C5 *)

Section ThresholdExit.

Variable cfg : Simulator.config.

(** While open, a date's action does not look at the signal: the state
    stays as it is unless the exit test fires, which closes it. *)
Lemma step_open (st : Simulator.loop_state) prev sig close :
  Simulator.position_open st = true ->
  fst (Simulator.step cfg st prev sig close)
  = if Simulator.exit_condition cfg (Simulator.buy_price st) close
    then Simulator.mkState false (Simulator.buy_price st) else st.
Proof.
  intros Hopen. unfold Simulator.step, Simulator.trade.
  rewrite Hopen, andb_false_r. simpl.
  destruct (Simulator.exit_condition cfg (Simulator.buy_price st) close); reflexivity.
Qed.

(** While flat, a Buy opens the position at the date's close. *)
Lemma step_buy (st : Simulator.loop_state) prev sig close :
  Simulator.position_open st = false -> Qeq_bool sig 1 = true ->
  fst (Simulator.step cfg st prev sig close) = Simulator.mkState true close.
Proof.
  intros Hflat Hsig. unfold Simulator.step, Simulator.trade. simpl.
  rewrite Hflat, Hsig. reflexivity.
Qed.

Lemma run_length st prev xs : length (Simulator.run cfg st prev xs) = length xs.
Proof.
  revert st prev. induction xs as [|[s c] xs IH]; intros st prev; simpl; [reflexivity|].
  destruct (Simulator.step cfg st prev s c). simpl. now rewrite IH.
Qed.

(** From an open state, the flag after date [j] is the negated exit test
    at [j], as long as the test failed at every earlier date. *)
Lemma run_from_open (xs : list (Q * Q)) :
  forall st prev j, Simulator.position_open st = true -> (j < length xs)%nat ->
  (forall k, (k < j)%nat ->
     Simulator.exit_condition cfg (Simulator.buy_price st) (snd (nth k xs (0, 0))) = false) ->
  Simulator.position_open (fst (nth j (Simulator.run cfg st prev xs) dflt_state))
  = negb (Simulator.exit_condition cfg (Simulator.buy_price st) (snd (nth j xs (0, 0)))).
Proof.
  induction xs as [|[s c] xs IH]; intros st prev j Hopen Hj Hk; simpl in Hj; [lia|].
  simpl. pose proof (step_open st prev s c Hopen) as Hst.
  destruct (Simulator.step cfg st prev s c) as [st' r] eqn:E. simpl in Hst.
  destruct j as [|j].
  - simpl. subst st'.
    destruct (Simulator.exit_condition cfg (Simulator.buy_price st) c); simpl; auto.
  - assert (Hc : Simulator.exit_condition cfg (Simulator.buy_price st) c = false)
      by exact (Hk 0%nat ltac:(lia)).
    rewrite Hc in Hst. subst st'.
    apply IH; [exact Hopen | lia |].
    intros k Hkj. exact (Hk (S k) ltac:(lia)).
Qed.

(** A Buy at date [i] on a flat state opens the position, which then
    closes exactly at the first later date whose exit test fires. *)
Lemma run_buy_then_exit (xs : list (Q * Q)) :
  forall st prev i s p,
  nth_error xs i = Some (s, p) -> Qeq_bool s 1 = true ->
  (match i with
   | O => Simulator.position_open st
   | S i' => Simulator.position_open (fst (nth i' (Simulator.run cfg st prev xs) dflt_state))
   end) = false ->
  Simulator.position_open (fst (nth i (Simulator.run cfg st prev xs) dflt_state)) = true
  /\ forall j, (i < j < length xs)%nat ->
     (forall k, (i < k < j)%nat ->
        Simulator.exit_condition cfg p (snd (nth k xs (0, 0))) = false) ->
     Simulator.position_open (fst (nth j (Simulator.run cfg st prev xs) dflt_state))
     = negb (Simulator.exit_condition cfg p (snd (nth j xs (0, 0)))).
Proof.
  induction xs as [|[s0 c0] xs IH]; intros st prev i s p Hi Hs Hflat.
  - destruct i; discriminate.
  - simpl in Hflat |- *.
    destruct (Simulator.step cfg st prev s0 c0) as [st' r] eqn:E.
    destruct i as [|i].
    + simpl in Hi. injection Hi as <- <-.
      pose proof (step_buy st prev s0 c0 Hflat Hs) as Hb.
      rewrite E in Hb. simpl in Hb. subst st'. simpl.
      split; [reflexivity|].
      intros j Hj Hk. destruct j as [|j]; [lia|]. simpl.
      apply (run_from_open xs (Simulator.mkState true c0) (Some r) j); simpl; [reflexivity|lia|].
      intros k Hkj. exact (Hk (S k) ltac:(lia)).
    + simpl in Hi.
      assert (Hflat' : match i with
                       | O => Simulator.position_open st'
                       | S i' => Simulator.position_open
                                   (fst (nth i' (Simulator.run cfg st' (Some r) xs) dflt_state))
                       end = false)
        by (destruct i; exact Hflat).
      destruct (IH st' (Some r) i s p Hi Hs Hflat') as [Hopen Hexit].
      split; [exact Hopen|].
      intros j Hj Hk. destruct j as [|j]; [lia|]. simpl.
      apply Hexit; [simpl in Hj; lia|].
      intros k Hkj. exact (Hk (S k) ltac:(lia)).
Qed.

End ThresholdExit.

(** C5: in [Simulator.execute_trade] (threshold exits), a Buy at date [i]
    while flat opens the position at entry price [p]; it stays open at
    each later date [j] as long as
    [(close_j - p) / p >= take_profit] and [(close_j - p) / p <= -stop_loss]
    both fail, and it is closed at the first date where one holds — not
    earlier, and whatever the signals of those dates. *)
Theorem C5_threshold_exit (cfg : Simulator.config) (inp : list (Q * Q))
    (i : nat) (s p : Q) :
  nth_error inp i = Some (s, p) -> Qeq_bool s 1 = true ->
  (i = O \/ nth (i - 1) (Simulator.open_flags cfg inp) true = false) ->
  nth i (Simulator.open_flags cfg inp) false = true
  /\ forall j, (i < j < length inp)%nat ->
     (forall k, (i < k < j)%nat ->
        let c := snd (nth k inp (0, 0)) in
        Qle_bool (Simulator.take_profit cfg) ((c - p) / p)
        || Qle_bool ((c - p) / p) (- Simulator.stop_loss cfg) = false) ->
     nth j (Simulator.open_flags cfg inp) false
     = negb (let c := snd (nth j inp (0, 0)) in
             Qle_bool (Simulator.take_profit cfg) ((c - p) / p)
             || Qle_bool ((c - p) / p) (- Simulator.stop_loss cfg)).
Proof.
  intros Hi Hs Hflat.
  assert (Hlen : (i < length inp)%nat)
    by (apply nth_error_Some; rewrite Hi; discriminate).
  assert (Hmap : forall n, nth n (Simulator.open_flags cfg inp) false
                 = Simulator.position_open
                     (fst (nth n (Simulator.run cfg Simulator.init_state None inp) (dflt_state)))).
  { intros n. unfold Simulator.open_flags.
    exact (map_nth (fun q => Simulator.position_open (fst q)) _ dflt_state n). }
  assert (Hflat' : match i with
                   | O => Simulator.position_open Simulator.init_state
                   | S i' => Simulator.position_open
                               (fst (nth i' (Simulator.run cfg Simulator.init_state None inp)
                                       dflt_state))
                   end = false).
  { destruct i as [|i']; [reflexivity|].
    destruct Hflat as [Hf|Hf]; [discriminate|].
    replace (S i' - 1)%nat with i' in Hf by lia.
    rewrite <- Hmap. rewrite (nth_indep _ false true); [exact Hf|].
    unfold Simulator.open_flags. rewrite length_map, run_length. lia. }
  destruct (run_buy_then_exit cfg inp Simulator.init_state None i s p Hi Hs Hflat')
    as [Hopen Hexit].
  split; [rewrite Hmap; exact Hopen|].
  intros j Hj Hk. rewrite Hmap. apply Hexit; [exact Hj|].
  intros k Hkj. exact (Hk k Hkj).
Qed.

(** Scenario C: take-profit 0.05, a Buy at 100, then closes 103 and 106:
    the position is still open at 103 and closed at 106. *)
Lemma C5_witness :
  Simulator.open_flags default_simulator [(1, 100); (0, 103); (0, 106)] = [true; true; false]
  /\ nth 2 (Simulator.open_flags default_simulator [(1, 100); (0, 103); (0, 106)]) false
     = false.
Proof.
  split; [vm_compute; reflexivity|].
  destruct (C5_threshold_exit default_simulator [(1, 100); (0, 103); (0, 106)] 0 1 100
              eq_refl eq_refl (or_introl eq_refl)) as [_ H].
  rewrite (H 2%nat ltac:(simpl; lia)).
  - vm_compute. reflexivity.
  - intros k Hk. assert (k = 1%nat) by lia. subst k. vm_compute. reflexivity.
Defined.

(** ** C6 *)

(** C6 (counterexample): the default [Simulator()] with a Buy at 100 and a
    close of 101 the next day never closes a trade, yet
    [calculate_metrics] reports a win rate of 100, not 0. *)
Lemma C6_win_rate_without_closed_trade :
  closed_trades (Simulator.open_flags default_simulator [(1, 100); (0, 101)]) = O
  /\ Metrics.win_rate (map Simulator.Portfolio_Value
                         (Simulator.execute_trade default_simulator [(1, 100); (0, 101)]))
     == 100.
Proof. vm_compute. split; reflexivity. Qed.

Lemma Q_nonzero_of_pos (p : Q) : 0 < p -> ~ p == 0.
Proof. intros Hp H. rewrite H in Hp. exact (Qlt_irrefl 0 Hp). Qed.

Lemma le_sub1 (y : Q) : y - 1 <= 0 <-> y <= 1.
Proof.
  rewrite (Qle_minus_iff (y - 1) 0), (Qle_minus_iff y 1).
  setoid_replace (0 + - (y - 1)) with (1 + - y) by ring. reflexivity.
Qed.

Lemma pct_change_le0 (x p : Q) : 0 < p -> (x / p - 1 <= 0 <-> x <= p).
Proof.
  intros Hp. pose proof (Q_nonzero_of_pos p Hp) as Hp0.
  set (y := x / p).
  assert (E : x == y * p) by (unfold y; field; exact Hp0).
  rewrite E, le_sub1, <- (Qmult_le_r y 1 p Hp), Qmult_1_l. reflexivity.
Qed.

Lemma pct_change_eq0 (x p : Q) : 0 < p -> (x / p - 1 == 0 <-> p == x).
Proof.
  intros Hp. pose proof (Q_nonzero_of_pos p Hp) as Hp0.
  set (y := x / p).
  assert (E : x == y * p) by (unfold y; field; exact Hp0).
  rewrite E. split; intros H.
  - assert (H1 : y == 1)
      by (setoid_replace y with (y - 1 + 1) by ring; rewrite H; ring).
    rewrite H1. ring.
  - assert (Hy : y == (y * p) / p) by (field; exact Hp0).
    rewrite <- H in Hy. rewrite Hy. field. exact Hp0.
Qed.

Lemma count_pct_change (rel : Q -> Q -> bool) (test : Q -> bool) :
  (forall x p, 0 < p -> test (x / p - 1) = rel p x) ->
  forall xs p, 0 < p -> Forall (fun v => 0 < v) xs ->
  Metrics.count test (Metrics.pct_change_from p xs) = count_moves rel p xs.
Proof.
  intros Htest xs. induction xs as [|x xs IH]; intros p Hp Hpos; [reflexivity|].
  inversion Hpos as [|? ? Hx Hxs]; subst.
  unfold Metrics.count in *. simpl. rewrite (Htest x p Hp).
  destruct (rel p x); simpl; rewrite IH by assumption; reflexivity.
Qed.

(** C6 (amended): [Simulator.calculate_metrics] computes the win rate over
    daily bars, not closed trades: on a column of positive portfolio
    values it is [100 * rises / changes], where [rises] counts the dates
    whose value rose from the previous date and [changes] the dates whose
    value changed, and it is 0 when no date's value changed. *)
Theorem C6_win_rate_over_bars (pv : list Q) :
  Forall (fun v => 0 < v) pv ->
  Metrics.win_rate pv
  = if (0 <? changes pv)%nat
    then inject_Z (Z.of_nat (rises pv)) / inject_Z (Z.of_nat (changes pv)) * 100
    else 0.
Proof.
  intros Hpos. destruct pv as [|v rest]; [reflexivity|].
  inversion Hpos as [|? ? Hv Hrest]; subst.
  unfold Metrics.win_rate, Metrics.daily_returns, rises, changes.
  replace (Metrics.count (fun r => negb (Qle_bool r 0)) (0 :: Metrics.pct_change_from v rest))
    with (count_moves (fun a b => negb (Qle_bool b a)) v rest).
  2:{ unfold Metrics.count. simpl. symmetry.
      apply (count_pct_change _ (fun r => negb (Qle_bool r 0))); auto.
      intros x p Hp. f_equal.
      destruct (Qle_bool (x / p - 1) 0) eqn:E1; destruct (Qle_bool x p) eqn:E2; auto.
      - apply Qle_bool_iff, (pct_change_le0 x p Hp), Qle_bool_iff in E1. congruence.
      - apply Qle_bool_iff, (pct_change_le0 x p Hp), Qle_bool_iff in E2. congruence. }
  replace (Metrics.count (fun r => negb (Qeq_bool r 0)) (0 :: Metrics.pct_change_from v rest))
    with (count_moves (fun a b => negb (Qeq_bool a b)) v rest).
  2:{ unfold Metrics.count. simpl. symmetry.
      apply (count_pct_change _ (fun r => negb (Qeq_bool r 0))); auto.
      intros x p Hp. f_equal.
      destruct (Qeq_bool (x / p - 1) 0) eqn:E1; destruct (Qeq_bool p x) eqn:E2; auto.
      - apply Qeq_bool_iff, (pct_change_eq0 x p Hp), Qeq_bool_iff in E1. congruence.
      - apply Qeq_bool_iff, (pct_change_eq0 x p Hp), Qeq_bool_iff in E2. congruence. }
  reflexivity.
Qed.

Lemma C6_witness :
  Forall (fun v : Q => 0 < v) pv_example
  /\ Metrics.win_rate pv_example
     = if (0 <? changes pv_example)%nat
       then inject_Z (Z.of_nat (rises pv_example))
            / inject_Z (Z.of_nat (changes pv_example)) * 100
       else 0.
Proof.
  assert (H : Forall (fun v : Q => 0 < v) pv_example)
    by (repeat constructor; reflexivity).
  split; [exact H | exact (C6_win_rate_over_bars _ H)].
Defined.

(** ** C7 *)

(** C7 (counterexample): price and signal series with different timestamp
    sets (and lengths) are not rejected: the frame keeps the two signal
    timestamps with their closes and [execute_trade] returns a two-row
    trace.  An empty signal series is not rejected either: the frame takes
    the three price timestamps, with NaN signals, and the trace has three
    rows. *)
Lemma C7_no_alignment_error :
  map fst signals_example <> map fst prices_example
  /\ Align.align signals_example prices_example = Some [(Some 0, Some 100); (Some 0, Some 100)]
  /\ length (Simulator.execute_trade default_simulator [(0, 100); (0, 100)]) = 2%nat
  /\ Align.align [] prices_example = Some [(None, Some 100); (None, Some 100); (None, Some 100)]
  /\ length (Simulator.execute_trade default_simulator [(0, 100); (0, 100); (0, 100)]) = 3%nat.
Proof. vm_compute. repeat split; [discriminate|..]; reflexivity. Qed.

Lemma set_where_length p f rows : length (set_where p f rows) = length rows.
Proof. unfold set_where. apply length_map. Qed.

Lemma shift1_length {A} (xs : list A) : length (shift1 xs) = length xs.
Proof.
  assert (H : forall (y : A) ys, length (removelast (y :: ys)) = length ys).
  { intros y ys. revert y. induction ys as [|z ys IH]; intros y; [reflexivity|].
    change (length (y :: removelast (z :: ys)) = S (length ys)).
    cbn [length]. rewrite IH. reflexivity. }
  destruct xs as [|x xs]; [reflexivity|]. unfold shift1.
  cbn [length]. rewrite length_map, H. reflexivity.
Qed.

Lemma ffill_length {A} (last : option A) xs : length (ffill last xs) = length xs.
Proof.
  revert last. induction xs as [|[v|] xs IH]; intros last; simpl; rewrite ?IH; reflexivity.
Qed.

Lemma backtest_length (self : Backtester.backtester) inp :
  length (Backtester.backtest self inp) = length inp.
Proof.
  unfold Backtester.backtest. cbv zeta.
  repeat first
    [ rewrite length_map | rewrite length_combine | rewrite set_where_length
    | rewrite shift1_length | rewrite ffill_length ].
  rewrite !Nat.min_id. reflexivity.
Qed.

(** ** C8 *)

Section SharpeFacts.
Local Open Scope R_scope.

Lemma sum_repeat (k : R) (n : nat) : Sharpe.sum (repeat k n) = INR n * k.
Proof.
  induction n as [|n IH]; [simpl; ring|].
  cbn [repeat]. unfold Sharpe.sum in *. cbn [fold_right]. rewrite IH, S_INR. ring.
Qed.

Lemma mean_repeat (k : R) (n : nat) : (0 < n)%nat -> Sharpe.mean (repeat k n) = k.
Proof.
  intros Hn. unfold Sharpe.mean. rewrite sum_repeat, repeat_length.
  field. apply not_0_INR. lia.
Qed.

(** A constant column has deviation 0 (or NaN below two values), hence a
    Sharpe ratio of 0. *)
Lemma sharpe_constant (k : R) (n : nat) :
  Sharpe.sharpe_ratio (repeat k n) = 0.
Proof.
  unfold Sharpe.sharpe_ratio, Sharpe.excess_returns. rewrite map_repeat.
  unfold Sharpe.std. rewrite repeat_length.
  destruct (n <? 2)%nat eqn:En; [reflexivity|].
  apply Nat.ltb_ge in En.
  rewrite mean_repeat by lia. rewrite map_repeat.
  replace ((k - Sharpe.risk_free_rate / 252 - (k - Sharpe.risk_free_rate / 252)) ^ 2)
    with 0 by ring.
  rewrite sum_repeat. replace (INR n * 0 / INR (n - 1)) with 0 by (field; apply not_0_INR; lia).
  rewrite sqrt_0. destruct (Rlt_dec 0 0) as [H|H]; [lra|reflexivity].
Qed.

(** The daily returns of a constant nonzero value column are all 0. *)
Lemma daily_returns_constant (c : Q) (n : nat) :
  ~ (c == 0)%Q -> map Q2R (Metrics.daily_returns (repeat c n)) = repeat 0 n.
Proof.
  intros Hc. destruct n as [|n]; [reflexivity|].
  cbn [repeat Metrics.daily_returns map].
  replace (Q2R 0) with 0 by (unfold Q2R; simpl; field).
  f_equal. induction n as [|n IH]; [reflexivity|].
  cbn [repeat Metrics.pct_change_from map]. rewrite IH. f_equal.
  rewrite (Qeq_eqR (c / c - 1) 0) by (field; exact Hc).
  unfold Q2R; simpl; field.
Qed.

End SharpeFacts.

Section FlatSharpe.
Import PrimFloat.

(** C8 (code bug): with no trade, the [Portfolio_Value] column of both
    backtests is flat, and the spec defines its Sharpe ratio as 0, which the
    exact computation over the reals gives.  In binary64, the thirteen
    excess returns are the same float, yet pandas' two-pass deviation of
    them is positive (about 7.05e-21): the guard [std() > 0] of line 197
    passes and [calculate_metrics] reports about -8.93e16. *)
Theorem C8_flat_value_sharpe :
  map Simulator.Portfolio_Value (Simulator.execute_trade default_simulator flat_rows)
    = repeat 10000 13
  /\ map F_Portfolio_Value (Backtester.backtest (Backtester.mkBacktester 10000 10) flat_rows)
    = repeat (Some 10000) 13
  /\ Sharpe.sharpe_ratio (map Q2R (Metrics.daily_returns (repeat 10000 13))) = 0%R
  /\ FloatMetrics.excess_returns (FloatMetrics.daily_returns (repeat 10000%float 13))
     = repeat (0 - FloatMetrics.risk_free_rate / 252)%float 13
  /\ PrimFloat.ltb 0%float
       (FloatMetrics.nanstd
          (FloatMetrics.excess_returns (FloatMetrics.daily_returns (repeat 10000%float 13))))
     = true
  /\ FloatMetrics.sharpe_ratio (repeat 10000%float 13) = (-89315819212032672)%float.
Proof.
  split; [vm_compute; reflexivity|]. split; [vm_compute; reflexivity|].
  split.
  - rewrite daily_returns_constant by discriminate. apply sharpe_constant.
  - vm_compute. repeat split; reflexivity.
Qed.

End FlatSharpe.

(** ** C9 *)

(** C9 (code bug): [Simulator(initial_balance=10, transaction_cost=10)]
    with a Buy at 100 buys [int(0 / 100) = 0] shares and leaves a balance
    of 0: the value column is [0], which never decreases, and its drawdown
    is [0.0 / 0.0], so [max_drawdown] is NaN, neither [<= 0] nor [0].
    [Portfolio.execute_trade] refuses the same buy ([max_shares > 0]). *)
Lemma C9_drawdown_nan_on_zero_value :
  let pv := map Simulator.Portfolio_Value
              (Simulator.execute_trade (Simulator.mkConfig 10 10 (5 # 100) (2 # 100)) [(1, 100)]) in
  pv = [0]
  /\ Metrics.max_drawdown pv = Metrics.NaN
  /\ Metrics.fle0 (Metrics.max_drawdown pv) = false
  /\ Portfolio.execute_trades (Portfolio.init 10 10) [(100, 1)]
     = [Portfolio.mkReport 10 0 0 10].
Proof. vm_compute. repeat split; reflexivity. Qed.

Lemma py_int_nonneg (x : Q) : 0 <= x -> 0 <= inject_Z (py_int x).
Proof.
  destruct x as [n d]. unfold Qle, py_int. simpl. intros H.
  pose proof (Z.quot_pos n (Zpos d) ltac:(lia) ltac:(lia)). lia.
Qed.

Lemma py_int_le (x : Q) : 0 <= x -> inject_Z (py_int x) <= x.
Proof.
  destruct x as [n d]. unfold Qle, py_int. simpl. intros H.
  pose proof (Z.mul_quot_le n (Zpos d) ltac:(lia) ltac:(lia)). lia.
Qed.

Lemma py_int_ge (x : Q) : x <= 0 -> x <= inject_Z (py_int x).
Proof.
  destruct x as [n d]. unfold Qle, py_int. simpl. intros H.
  pose proof (Z.mul_quot_ge n (Zpos d) ltac:(lia) ltac:(lia)). lia.
Qed.

Section Solvency.

Variable cfg : Simulator.config.
Hypothesis Htc0 : 0 <= Simulator.transaction_cost cfg.
Hypothesis Htc : Simulator.transaction_cost cfg < Simulator.initial_balance cfg.

Lemma ib_pos : 0 < Simulator.initial_balance cfg.
Proof. exact (Qle_lt_trans _ _ _ Htc0 Htc). Qed.

Lemma Qle_or_eq (x : Q) : 0 <= x -> 0 < x \/ x == 0.
Proof.
  intros H. destruct (Qlt_le_dec 0 x) as [H1|H1]; [left; exact H1|].
  right. apply Qle_antisym; assumption.
Qed.

Lemma trade_solvent st prev sig c :
  0 < c -> prev_solvent prev ->
  solvent (snd (Simulator.trade cfg st prev (Simulator.fresh_row cfg sig c))).
Proof.
  intros Hc Hprev. pose proof ib_pos as Hib.
  set (ib := Simulator.initial_balance cfg) in *.
  set (tc := Simulator.transaction_cost cfg) in *.
  unfold Simulator.trade, Simulator.fresh_row. cbn [Simulator.Signal Simulator.Close Simulator.Balance].
  fold tc. fold ib.
  destruct (Qeq_bool sig 1 && negb (Simulator.position_open st)).
  - (* buy *)
    cbn [snd]. unfold solvent. cbn [Simulator.Close Simulator.Balance Simulator.Shares].
    set (y := (ib - tc) / c).
    assert (Hy : 0 <= y).
    { unfold y. apply Qle_shift_div_l; [exact Hc|].
      setoid_replace (0 * c) with 0 by ring.
      apply Qlt_le_weak. rewrite Qlt_minus_iff in Htc. exact Htc. }
    set (s := inject_Z (py_int y)).
    assert (Hs0 : 0 <= s) by exact (py_int_nonneg y Hy).
    assert (Hsy : s <= y) by exact (py_int_le y Hy).
    assert (Hsc : s * c <= ib - tc).
    { setoid_replace (ib - tc) with (y * c) by (unfold y; field; apply Q_nonzero_of_pos; exact Hc).
      apply Qmult_le_compat_r; [exact Hsy | apply Qlt_le_weak; exact Hc]. }
    split; [exact Hc|]. split; [|split; [exact Hs0|]].
    + rewrite Qle_minus_iff in Hsc |- *.
      setoid_replace (ib - (s * c + tc) + - 0) with (ib - tc + - (s * c)) by ring. exact Hsc.
    + destruct (Qle_or_eq s Hs0) as [Hpos|Hzero]; [right; exact Hpos|left].
      rewrite Hzero. setoid_replace (ib - (0 * c + tc)) with (ib - tc) by ring.
      rewrite Qlt_minus_iff in Htc |- *.
      setoid_replace (ib - tc + - 0) with (ib + - tc) by ring. exact Htc.
  - destruct (Simulator.position_open st).
    + destruct (Simulator.exit_condition cfg (Simulator.buy_price st) c).
      * (* exit *)
        cbn [snd]. unfold solvent. cbn [Simulator.Close Simulator.Balance Simulator.Shares].
        set (ps := match prev with Some p => Simulator.Shares p | None => 0 end).
        assert (Hps : 0 <= ps).
        { unfold ps. destruct prev as [p|]; [apply Hprev|apply Qle_refl]. }
        set (z := ps * c - tc).
        assert (Hint : ib - tc <= ib + inject_Z (py_int z)).
        { destruct (Qlt_le_dec 0 z) as [Hz|Hz].
          - pose proof (py_int_nonneg z (Qlt_le_weak _ _ Hz)) as H0.
            rewrite Qle_minus_iff in H0 |- *.
            setoid_replace (ib + inject_Z (py_int z) + - (ib - tc))
              with ((inject_Z (py_int z) + - 0) + tc) by ring.
            setoid_replace 0 with (0 + 0) by ring.
            apply Qplus_le_compat; assumption.
          - pose proof (py_int_ge z Hz) as H0.
            assert (Hz2 : - tc <= z).
            { unfold z. rewrite Qle_minus_iff.
              setoid_replace (ps * c - tc + - - tc) with (ps * c) by ring.
              apply Qmult_le_0_compat; [exact Hps | apply Qlt_le_weak; exact Hc]. }
            pose proof (Qle_trans _ _ _ Hz2 H0) as H1.
            rewrite Qle_minus_iff in H1 |- *.
            setoid_replace (ib + inject_Z (py_int z) + - (ib - tc))
              with (inject_Z (py_int z) + - - tc) by ring. exact H1. }
        assert (Hpos : 0 < ib + inject_Z (py_int z)).
        { apply (Qlt_le_trans _ (ib - tc)); [|exact Hint].
          rewrite Qlt_minus_iff in Htc |- *.
          setoid_replace (ib - tc + - 0) with (ib + - tc) by ring. exact Htc. }
        split; [exact Hc|]. split; [apply Qlt_le_weak; exact Hpos|].
        split; [apply Qle_refl | left; exact Hpos].
      * cbn [snd]. unfold solvent. cbn [Simulator.Close Simulator.Balance Simulator.Shares].
        split; [exact Hc|]. split; [apply Qlt_le_weak; exact Hib|].
        split; [apply Qle_refl | left; exact Hib].
    + cbn [snd]. unfold solvent. cbn [Simulator.Close Simulator.Balance Simulator.Shares].
      split; [exact Hc|]. split; [apply Qlt_le_weak; exact Hib|].
      split; [apply Qle_refl | left; exact Hib].
Qed.

Lemma carry_solvent prev r :
  prev_solvent prev -> solvent r -> solvent (Simulator.carry_forward cfg prev r).
Proof.
  intros Hprev Hr. destruct prev as [p|]; [|exact Hr].
  destruct Hprev as [Hpc [Hpb [Hps Hpor]]]. destruct Hr as [Hc [Hb [Hs Hor]]].
  unfold solvent, Simulator.carry_forward.
  cbn [Simulator.Close Simulator.Balance Simulator.Shares].
  split; [exact Hc|].
  destruct (Qeq_bool (Simulator.Shares r) 0) eqn:Es;
  destruct (Qeq_bool (Simulator.Balance r) (Simulator.initial_balance cfg)) eqn:Eb.
  - auto.
  - apply Qeq_bool_iff in Es. split; [exact Hb|]. split; [exact Hps|].
    destruct Hor as [Hor|Hor]; [left; exact Hor|].
    rewrite Es in Hor. exfalso. exact (Qlt_irrefl 0 Hor).
  - split; [exact Hpb|]. split; [exact Hs|]. right.
    destruct (Qle_or_eq _ Hs) as [H|H]; [exact H|].
    apply Qeq_bool_iff in H. congruence.
  - auto.
Qed.

Lemma step_solvent st prev sig c :
  0 < c -> prev_solvent prev -> solvent (snd (Simulator.step cfg st prev sig c)).
Proof.
  intros Hc Hprev. unfold Simulator.step.
  pose proof (trade_solvent st prev sig c Hc Hprev) as H.
  destruct (Simulator.trade cfg st prev (Simulator.fresh_row cfg sig c)) as [st' r].
  exact (carry_solvent prev r Hprev H).
Qed.

Lemma run_solvent (xs : list (Q * Q)) :
  forall st prev, prev_solvent prev -> Forall (fun x => 0 < snd x) xs ->
  Forall (fun x => solvent (snd x)) (Simulator.run cfg st prev xs).
Proof.
  induction xs as [|[s c] xs IH]; intros st prev Hprev Hxs; simpl; [constructor|].
  inversion Hxs as [|? ? Hc Hrest]; subst. simpl in Hc.
  pose proof (step_solvent st prev s c Hc Hprev) as H.
  destruct (Simulator.step cfg st prev s c) as [st' r]. simpl in H.
  constructor; [exact H|]. apply IH; [exact H|exact Hrest].
Qed.

(** With [0 <= transaction_cost < initial_balance] and positive closes,
    every portfolio value of the trace is positive. *)
Lemma trace_values_positive (inp : list (Q * Q)) :
  Forall (fun x => 0 < snd x) inp ->
  Forall (fun v => 0 < v) (map Simulator.Portfolio_Value (Simulator.execute_trade cfg inp)).
Proof.
  intros Hinp. pose proof (run_solvent inp Simulator.init_state None I Hinp) as H.
  unfold Simulator.execute_trade. rewrite map_map.
  apply Forall_map. eapply Forall_impl; [|exact H].
  intros [st r] [Hc [Hb [Hs Hor]]]. cbn [snd Simulator.with_value Simulator.Portfolio_Value] in *.
  cbn [Simulator.Balance Simulator.Shares Simulator.Close].
  destruct Hor as [Hb'|Hs'].
  - apply (Qlt_le_trans _ (Simulator.Balance r + 0)).
    + setoid_replace (Simulator.Balance r + 0) with (Simulator.Balance r) by ring. exact Hb'.
    + apply Qplus_le_compat; [apply Qle_refl|].
      apply Qmult_le_0_compat; [exact Hs | apply Qlt_le_weak; exact Hc].
  - apply (Qlt_le_trans _ (0 + Simulator.Shares r * Simulator.Close r)).
    + setoid_replace (0 + Simulator.Shares r * Simulator.Close r)
        with (Simulator.Shares r * Simulator.Close r) by ring.
      apply Qmult_lt_0_compat; assumption.
    + apply Qplus_le_compat; [exact Hb | apply Qle_refl].
Qed.

End Solvency.

Lemma nanmin_fold_le0 (xs : list Metrics.float) :
  forall a, Forall fin_le0 xs -> a <= 0 ->
  exists q, fold_left Metrics.nanmin_step xs (Metrics.Fin a) = Metrics.Fin q /\ q <= 0.
Proof.
  induction xs as [|x xs IH]; intros a Hxs Ha; simpl; [eauto|].
  inversion Hxs as [|? ? [b [-> Hb]] Hrest]; subst.
  apply IH; [exact Hrest|]. simpl.
  apply (Qle_trans _ a); [apply Q.le_min_l | exact Ha].
Qed.

Lemma nanmin_fold_eq0 (xs : list Metrics.float) :
  forall a, Forall fin_eq0 xs -> a == 0 ->
  exists q, fold_left Metrics.nanmin_step xs (Metrics.Fin a) = Metrics.Fin q /\ q == 0.
Proof.
  induction xs as [|x xs IH]; intros a Hxs Ha; simpl; [eauto|].
  inversion Hxs as [|? ? [b [-> Hb]] Hrest]; subst.
  apply IH; [exact Hrest|]. simpl.
  rewrite Q.min_l; [exact Ha|]. rewrite Ha, Hb. apply Qle_refl.
Qed.

Lemma nondecreasing_from_compat m m' xs :
  m == m' -> nondecreasing_from m xs -> nondecreasing_from m' xs.
Proof.
  destruct xs as [|x xs]; simpl; [auto|]. intros E [H1 H2]. split; [rewrite <- E; exact H1|exact H2].
Qed.

Lemma drawdowns_from_le0 (xs : list Q) :
  forall m, 0 < m -> Forall (fun v => 0 < v) xs ->
  Forall fin_le0
    (map (fun '(v, mx) => Metrics.fdiv (v - mx) mx) (combine xs (Metrics.running_max_from m xs))).
Proof.
  induction xs as [|x xs IH]; intros m Hm Hxs; simpl; [constructor|].
  inversion Hxs as [|? ? Hx Hrest]; subst.
  set (M := Qmax m x).
  assert (HM : 0 < M) by (apply (Qlt_le_trans _ m); [exact Hm | apply Q.le_max_l]).
  constructor.
  - unfold Metrics.fdiv.
    destruct (Qeq_bool M 0) eqn:E.
    + apply Qeq_bool_iff in E. rewrite E in HM. exfalso. exact (Qlt_irrefl 0 HM).
    + eexists; split; [reflexivity|].
      apply Qle_shift_div_r; [exact HM|].
      setoid_replace (0 * M) with 0 by ring.
      pose proof (Q.le_max_r m x) as Hxm. fold M in Hxm.
      rewrite Qle_minus_iff in Hxm |- *.
      setoid_replace (0 + - (x - M)) with (M + - x) by ring. exact Hxm.
  - apply IH; [exact HM | exact Hrest].
Qed.

Lemma drawdowns_from_eq0 (xs : list Q) :
  forall m, 0 < m -> nondecreasing_from m xs ->
  Forall fin_eq0
    (map (fun '(v, mx) => Metrics.fdiv (v - mx) mx) (combine xs (Metrics.running_max_from m xs))).
Proof.
  induction xs as [|x xs IH]; intros m Hm Hnd; simpl; [constructor|].
  destruct Hnd as [Hmx Hrest].
  set (M := Qmax m x).
  assert (HMx : M == x) by (apply Q.max_r; exact Hmx).
  assert (HM : 0 < M) by (apply (Qlt_le_trans _ m); [exact Hm | apply Q.le_max_l]).
  constructor.
  - unfold Metrics.fdiv.
    destruct (Qeq_bool M 0) eqn:E.
    + apply Qeq_bool_iff in E. rewrite E in HM. exfalso. exact (Qlt_irrefl 0 HM).
    + eexists; split; [reflexivity|].
      rewrite HMx. setoid_replace (x - x) with 0 by ring.
      field. apply Q_nonzero_of_pos. rewrite <- HMx. exact HM.
  - apply IH; [exact HM|]. apply (nondecreasing_from_compat x); [symmetry; exact HMx | exact Hrest].
Qed.

(** On a nonempty column of positive values, [max_drawdown] is a number
    [<= 0], and 0 when the column never decreases. *)
Lemma max_drawdown_positive (pv : list Q) :
  pv <> [] -> Forall (fun v => 0 < v) pv ->
  exists q, Metrics.max_drawdown pv = Metrics.Fin q /\ q <= 0 /\ (nondecreasing pv -> q == 0).
Proof.
  intros Hne Hpos. destruct pv as [|v rest]; [contradiction|].
  inversion Hpos as [|? ? Hv Hrest]; subst.
  unfold Metrics.max_drawdown, Metrics.drawdowns, Metrics.rolling_max, Metrics.nanmin.
  cbn [combine map fold_left].
  assert (Hd0 : Metrics.fdiv (v - v) v = Metrics.Fin ((v - v) / v)).
  { unfold Metrics.fdiv. destruct (Qeq_bool v 0) eqn:E; [|reflexivity].
    apply Qeq_bool_iff in E. rewrite E in Hv. exfalso. exact (Qlt_irrefl 0 Hv). }
  rewrite Hd0. cbn [Metrics.nanmin_step].
  assert (Ha : (v - v) / v == 0)
    by (setoid_replace (v - v) with 0 by ring; field; apply Q_nonzero_of_pos; exact Hv).
  destruct (nanmin_fold_le0 _ ((v - v) / v) (drawdowns_from_le0 rest v Hv Hrest)
              ltac:(rewrite Ha; apply Qle_refl)) as [q [Hq Hq0]].
  rewrite Hq. exists (q * 100). split; [reflexivity|]. split.
  - setoid_replace 0 with (0 * 100) by ring.
    apply Qmult_le_compat_r; [exact Hq0 | discriminate].
  - intros Hnd.
    destruct (nanmin_fold_eq0 _ ((v - v) / v) (drawdowns_from_eq0 rest v Hv Hnd) Ha)
      as [q' [Hq' Hq'0]].
    rewrite Hq in Hq'. injection Hq' as ->. rewrite Hq'0. ring.
Qed.

(** [Simulator.calculate_metrics] gives, on every nonempty column of
    positive portfolio values, a [max_drawdown] that is a number [<= 0],
    and 0 when the column never decreases; every portfolio value of a
    [Simulator.execute_trade] trace is positive when
    [0 <= transaction_cost < initial_balance] and every close is
    positive. *)
Theorem simulator_max_drawdown_nonpositive :
  (forall pv : list Q, pv <> [] -> Forall (fun v => 0 < v) pv ->
     exists q, Metrics.max_drawdown pv = Metrics.Fin q /\ q <= 0
               /\ (nondecreasing pv -> q == 0))
  /\ (forall (cfg : Simulator.config) (inp : list (Q * Q)),
        0 <= Simulator.transaction_cost cfg ->
        Simulator.transaction_cost cfg < Simulator.initial_balance cfg ->
        Forall (fun x => 0 < snd x) inp ->
        Forall (fun v => 0 < v)
          (map Simulator.Portfolio_Value (Simulator.execute_trade cfg inp))).
Proof.
  split.
  - exact max_drawdown_positive.
  - intros cfg inp H0 H1 H2. exact (trace_values_positive cfg H0 H1 inp H2).
Qed.

Lemma simulator_max_drawdown_nonpositive_witness :
  exists q, Metrics.max_drawdown
              (map Simulator.Portfolio_Value (Simulator.execute_trade default_simulator scenario_B))
            = Metrics.Fin q /\ q <= 0.
Proof.
  assert (Hpos : Forall (fun v => 0 < v)
                   (map Simulator.Portfolio_Value
                      (Simulator.execute_trade default_simulator scenario_B))).
  { apply (proj2 simulator_max_drawdown_nonpositive); [discriminate | reflexivity |].
    repeat constructor. }
  destruct (proj1 simulator_max_drawdown_nonpositive
              (map Simulator.Portfolio_Value (Simulator.execute_trade default_simulator scenario_B))
              ltac:(vm_compute; intro E; discriminate E) Hpos)
    as [q [Hq [Hq0 _]]].
  exists q. split; assumption.
Defined.

(** * Further properties of the code *)

Lemma execute_trade_report self price signal :
  snd (Portfolio.execute_trade self price signal)
  = Portfolio.mkReport (Portfolio.balance (fst (Portfolio.execute_trade self price signal)))
      (Portfolio.shares (fst (Portfolio.execute_trade self price signal)))
      (Portfolio.position (fst (Portfolio.execute_trade self price signal)))
      (pf_value (fst (Portfolio.execute_trade self price signal)) price).
Proof. reflexivity. Qed.

Lemma execute_trade_consistent self price signal :
  portfolio_consistent self ->
  portfolio_consistent (fst (Portfolio.execute_trade self price signal)).
Proof.
  unfold portfolio_consistent, pf_consistent, Portfolio.execute_trade.
  intros H. cbn [fst].
  destruct (Qeq_bool signal 1 && Z.eqb (Portfolio.position self) 0); [|
  destruct (Qeq_bool signal (-1) && Z.eqb (Portfolio.position self) 1)].
  - destruct (Qlt_le_dec 0 (py_floordiv (Portfolio.balance self - Portfolio.transaction_cost self) price))
      as [Hm|Hm]; [|exact H].
    right. cbn [Portfolio.position Portfolio.shares]. split; [reflexivity|]. split; [exact Hm|].
    unfold py_floordiv. rewrite Qfloor_Z. reflexivity.
  - destruct (Qlt_le_dec 0 (Portfolio.shares self)); [|exact H].
    left. cbn [Portfolio.position Portfolio.shares]. split; reflexivity.
  - exact H.
Qed.

Lemma execute_trades_consistent (inp : list (Q * Q)) :
  forall self, portfolio_consistent self ->
  Forall report_consistent (Portfolio.execute_trades self inp).
Proof.
  induction inp as [|[price signal] rest IH]; intros self H; cbn [Portfolio.execute_trades]; [constructor|].
  rewrite (surjective_pairing (Portfolio.execute_trade self price signal)).
  constructor.
  - rewrite execute_trade_report. unfold report_consistent. cbn [Portfolio.rep_position Portfolio.rep_shares].
    apply execute_trade_consistent. exact H.
  - apply IH. apply execute_trade_consistent. exact H.
Qed.

Lemma execute_trades_app (xs ys : list (Q * Q)) :
  forall self, Portfolio.execute_trades self (xs ++ ys)
  = Portfolio.execute_trades self xs ++ Portfolio.execute_trades (run_portfolio self xs) ys.
Proof.
  induction xs as [|[p s] xs IH]; intros self; [reflexivity|].
  cbn [app Portfolio.execute_trades run_portfolio].
  rewrite (surjective_pairing (Portfolio.execute_trade self p s)). cbn [app].
  rewrite IH. reflexivity.
Qed.

Lemma last_execute_trades (xs : list (Q * Q)) self price signal d :
  last (Portfolio.execute_trades self (xs ++ [(price, signal)])) d
  = snd (Portfolio.execute_trade (run_portfolio self xs) price signal).
Proof.
  rewrite execute_trades_app. cbn [Portfolio.execute_trades].
  rewrite (surjective_pairing (Portfolio.execute_trade _ price signal)).
  apply last_last.
Qed.

Lemma run_portfolio_app (xs ys : list (Q * Q)) :
  forall self, run_portfolio self (xs ++ ys) = run_portfolio (run_portfolio self xs) ys.
Proof. induction xs as [|[p s] xs IH]; intros self; [reflexivity|]. apply IH. Qed.

Lemma hold_long (xs : list (Q * Q)) :
  forall self, Portfolio.position self = 1%Z ->
  Forall (fun x => Qeq_bool (snd x) (-1) = false) xs ->
  run_portfolio self xs = self.
Proof.
  induction xs as [|[p s] xs IH]; intros self Hpos Hxs; [reflexivity|].
  inversion Hxs as [|? ? Hs Hrest]; subst. cbn [snd] in Hs.
  cbn [run_portfolio]. unfold Portfolio.execute_trade. rewrite Hpos, Hs.
  cbn [Z.eqb fst]. rewrite andb_false_r. cbn. apply IH; assumption.
Qed.

Lemma floor_pos_iff (y : Q) : 0 < inject_Z (Qfloor y) <-> 1 <= y.
Proof.
  split; intros H.
  - change 0 with (inject_Z 0) in H. rewrite <- Zlt_Qlt in H. apply (Qle_trans _ (inject_Z (Qfloor y))); [|apply Qfloor_le].
    change 1 with (inject_Z 1). rewrite <- Zle_Qle. lia.
  - change 0 with (inject_Z 0). rewrite <- Zlt_Qlt. apply Qfloor_resp_le in H. change (Qfloor 1) with 1%Z in H. lia.
Qed.

Lemma buy_branch self price :
  Portfolio.position self = 0%Z ->
  fst (Portfolio.execute_trade self price 1)
  = let max_shares := py_floordiv (Portfolio.balance self - Portfolio.transaction_cost self) price in
    if Qlt_le_dec 0 max_shares then
      Portfolio.mkPortfolio (Portfolio.initial_balance self)
        (Portfolio.balance self - (max_shares * price + Portfolio.transaction_cost self))
        1 max_shares (Portfolio.transaction_cost self)
    else self.
Proof. intros H. unfold Portfolio.execute_trade. rewrite H. reflexivity. Qed.

(** A Buy signal on a flat [Portfolio] fills exactly when the price is at most the balance less the fee; a fill leaves a balance below one share price and not negative. *)
Theorem portfolio_buy_fill (self : Portfolio.portfolio) (price : Q) :
  0 < price -> Portfolio.position self = 0%Z ->
  let self' := fst (Portfolio.execute_trade self price 1) in
  (Portfolio.position self' = 1%Z
     <-> price <= Portfolio.balance self - Portfolio.transaction_cost self)
  /\ (Portfolio.position self' = 1%Z ->
        0 <= Portfolio.balance self' /\ Portfolio.balance self' < price).
Proof.
  intros Hp Hpos. cbv zeta. rewrite (buy_branch self price Hpos).
  set (y := (Portfolio.balance self - Portfolio.transaction_cost self) / price).
  assert (Hy : Portfolio.balance self - Portfolio.transaction_cost self == y * price)
    by (unfold y; field; apply Q_nonzero_of_pos; exact Hp).
  unfold py_floordiv. fold y.
  destruct (Qlt_le_dec 0 (inject_Z (Qfloor y))) as [Hm|Hm]; cbn [Portfolio.position Portfolio.balance].
  - split; [split; [intros _|reflexivity]|intros _].
    + apply floor_pos_iff in Hm. rewrite Hy.
      setoid_replace price with (1 * price) at 1 by ring.
      apply Qmult_le_compat_r; [exact Hm | apply Qlt_le_weak; exact Hp].
    + split.
      * setoid_replace (Portfolio.balance self - (inject_Z (Qfloor y) * price + Portfolio.transaction_cost self))
          with ((y - inject_Z (Qfloor y)) * price) by (unfold y; field; apply Q_nonzero_of_pos; exact Hp).
        apply Qmult_le_0_compat; [|apply Qlt_le_weak; exact Hp].
        pose proof (Qfloor_le y). rewrite Qle_minus_iff in H |- *.
        setoid_replace (y - inject_Z (Qfloor y) + - 0) with (y + - inject_Z (Qfloor y)) by ring. exact H.
      * setoid_replace (Portfolio.balance self - (inject_Z (Qfloor y) * price + Portfolio.transaction_cost self))
          with ((y - inject_Z (Qfloor y)) * price) by (unfold y; field; apply Q_nonzero_of_pos; exact Hp).
        setoid_replace price with (1 * price) at 2 by ring.
        apply Qmult_lt_r; [exact Hp|].
        pose proof (Qlt_floor y). rewrite inject_Z_plus in H.
        change (inject_Z 1) with 1 in H.
        rewrite Qlt_minus_iff in H |- *.
        setoid_replace (1 + - (y - inject_Z (Qfloor y))) with (inject_Z (Qfloor y) + 1 + - y) by ring.
        exact H.
  - split; [split; [intros H; rewrite Hpos in H; discriminate|intros H]|intros H; rewrite Hpos in H; discriminate].
    exfalso. apply (Qlt_not_le 0 (inject_Z (Qfloor y))); [|exact Hm].
    apply floor_pos_iff.
    apply (Qmult_le_r _ _ price Hp). rewrite <- Hy. rewrite Qmult_1_l. exact H.
Qed.

(** Every report of [Portfolio.backtest] from a fresh portfolio has position 0 with no shares, or position 1 with a positive whole number of shares. *)
Theorem portfolio_reports_consistent (ib tc : Q) (inp : list (Q * Q)) :
  Forall report_consistent (Portfolio.execute_trades (Portfolio.init ib tc) inp).
Proof.
  apply execute_trades_consistent.
  left. split; reflexivity.
Qed.

(** A [Portfolio] trade either leaves the portfolio as it was, reporting its value at the price, or flips the position, reporting that value less one fee. *)
Theorem portfolio_trade_accounting (self : Portfolio.portfolio) (price signal : Q) :
  0 < price -> portfolio_consistent self ->
  let self' := fst (Portfolio.execute_trade self price signal) in
  let rep := snd (Portfolio.execute_trade self price signal) in
  (self' = self /\ Portfolio.rep_total_value rep == pf_value self price)
  \/ (Portfolio.position self' <> Portfolio.position self
      /\ Portfolio.rep_total_value rep
         == pf_value self price - Portfolio.transaction_cost self).
Proof.
  intros Hp Hc. cbv zeta. rewrite execute_trade_report. cbn [Portfolio.rep_total_value].
  unfold portfolio_consistent, pf_consistent in Hc.
  unfold Portfolio.execute_trade. cbn [fst].
  destruct (Qeq_bool signal 1 && Z.eqb (Portfolio.position self) 0) eqn:Eb; [|
  destruct (Qeq_bool signal (-1) && Z.eqb (Portfolio.position self) 1) eqn:Es].
  - apply andb_true_iff in Eb. destruct Eb as [_ Eb]. apply Z.eqb_eq in Eb.
    destruct (Qlt_le_dec 0 _) as [Hm|Hm].
    + right. cbn [Portfolio.position]. rewrite Eb. split; [discriminate|].
      destruct Hc as [[_ H0]|[H1 _]]; [|rewrite Eb in H1; discriminate].
      unfold pf_value. cbn [Portfolio.balance Portfolio.shares]. rewrite H0. ring.
    + left. split; reflexivity.
  - apply andb_true_iff in Es. destruct Es as [_ Es]. apply Z.eqb_eq in Es.
    destruct (Qlt_le_dec 0 (Portfolio.shares self)) as [Hs|Hs].
    + right. cbn [Portfolio.position]. rewrite Es. split; [discriminate|].
      unfold pf_value. cbn [Portfolio.balance Portfolio.shares]. ring.
    + left. split; reflexivity.
  - left. split; reflexivity.
Qed.

(** A [Portfolio] buy at [p1], held through signals other than Sell, then sold at [p2] ends flat with the balance changed by the filled shares times [p2 - p1], less two fees. *)
Theorem portfolio_round_trip (self : Portfolio.portfolio) (p1 p2 : Q) (mid : list (Q * Q)) :
  0 < p1 -> 0 < p2 -> Portfolio.position self = 0%Z ->
  p1 <= Portfolio.balance self - Portfolio.transaction_cost self ->
  Forall (fun x => Qeq_bool (snd x) (-1) = false) mid ->
  let n := py_floordiv (Portfolio.balance self - Portfolio.transaction_cost self) p1 in
  let rp := last (Portfolio.execute_trades self ((p1, 1) :: mid ++ [(p2, -1)]))
              (Portfolio.mkReport 0 0 0 0) in
  Portfolio.rep_balance rp
    == Portfolio.balance self + n * (p2 - p1) - 2 * Portfolio.transaction_cost self
  /\ Portfolio.rep_shares rp == 0 /\ Portfolio.rep_position rp = 0%Z.
Proof.
  intros H1 H2 Hpos Hfill Hmid. cbv zeta.
  rewrite app_comm_cons, last_execute_trades. cbn [run_portfolio].
  pose proof (portfolio_buy_fill self p1 H1 Hpos) as [[_ Hf] _]. specialize (Hf Hfill).
  revert Hf. rewrite (buy_branch self p1 Hpos). cbv zeta.
  destruct (Qlt_le_dec 0 _) as [Hm|Hm]; cbn [Portfolio.position]; [intros _|intros E; rewrite Hpos in E; discriminate].
  rewrite hold_long by (reflexivity || exact Hmid).
  unfold Portfolio.execute_trade.
  change (Qeq_bool (-1) 1) with false. change (Qeq_bool (-1) (-1)) with true.
  cbn [andb Portfolio.position Portfolio.shares Z.eqb].
  destruct (Qlt_le_dec 0 _) as [Hs|Hs]; [|exfalso; apply (Qlt_not_le _ _ Hm Hs)].
  cbn. split; [ring|split; reflexivity].
Qed.

Lemma trade_prev cfg st prev r :
  Simulator.trade cfg st prev r = Simulator.trade cfg st (option_map without_signal prev) r.
Proof. destruct prev; reflexivity. Qed.

Lemma carry_prev cfg prev r :
  Simulator.carry_forward cfg prev r
  = Simulator.carry_forward cfg (option_map without_signal prev) r.
Proof. destruct prev; reflexivity. Qed.

Lemma step_signal cfg st prev s s' c :
  Qeq_bool s 1 = Qeq_bool s' 1 ->
  fst (Simulator.step cfg st prev s c) = fst (Simulator.step cfg st prev s' c)
  /\ without_signal (snd (Simulator.step cfg st prev s c))
     = without_signal (snd (Simulator.step cfg st prev s' c)).
Proof.
  intros E. unfold Simulator.step, Simulator.trade, Simulator.fresh_row.
  cbn [Simulator.Signal Simulator.Close Simulator.Balance]. rewrite E.
  destruct (Qeq_bool s' 1 && negb (Simulator.position_open st)); [|
  destruct (Simulator.position_open st); [
  destruct (Simulator.exit_condition cfg (Simulator.buy_price st) c)|]];
  destruct prev; split; reflexivity.
Qed.

Lemma run_signal cfg (inp1 : list (Q * Q)) :
  forall inp2 st prev1 prev2,
  map snd inp1 = map snd inp2 -> map is_buy inp1 = map is_buy inp2 ->
  option_map without_signal prev1 = option_map without_signal prev2 ->
  map (fun p => (fst p, without_signal (snd p))) (Simulator.run cfg st prev1 inp1)
  = map (fun p => (fst p, without_signal (snd p))) (Simulator.run cfg st prev2 inp2).
Proof.
  induction inp1 as [|[s c] rest IH]; intros [|[s' c'] rest2] st prev1 prev2 Hc Hb Hp;
    try discriminate; [reflexivity|].
  cbn [map snd] in Hc. injection Hc as <- Hc.
  cbn [map is_buy fst] in Hb. injection Hb as Eb Hb.
  cbn [Simulator.run].
  assert (Hstep : Simulator.step cfg st prev1 s c
                  = Simulator.step cfg st prev2 s c).
  { unfold Simulator.step. rewrite trade_prev, (trade_prev cfg st prev2), Hp.
    destruct (Simulator.trade _ _ _ _). rewrite carry_prev, (carry_prev cfg prev2), Hp. reflexivity. }
  rewrite Hstep.
  destruct (step_signal cfg st prev2 s s' c Eb) as [E1 E2].
  rewrite (surjective_pairing (Simulator.step cfg st prev2 s c)).
  rewrite (surjective_pairing (Simulator.step cfg st prev2 s' c)).
  cbn [map fst snd]. rewrite E1, E2. f_equal.
  apply IH; [exact Hc | exact Hb | cbn; rewrite E2; reflexivity].
Qed.

(** Apart from the [Signal] column, the Simulator trace depends only on the closes and on which dates carry a Buy signal: Sell and Hold signals are interchangeable. *)
Theorem simulator_ignores_sell_signals (cfg : Simulator.config) (inp1 inp2 : list (Q * Q)) :
  map snd inp1 = map snd inp2 -> map is_buy inp1 = map is_buy inp2 ->
  map without_signal (Simulator.execute_trade cfg inp1)
  = map without_signal (Simulator.execute_trade cfg inp2).
Proof.
  intros Hc Hb. unfold Simulator.execute_trade. rewrite !map_map.
  pose proof (run_signal cfg inp1 inp2 Simulator.init_state None None Hc Hb eq_refl) as H.
  apply (f_equal (map (fun p => without_signal (Simulator.with_value (snd p))))) in H.
  rewrite !map_map in H. cbn [fst snd] in H.
  replace (fun x => without_signal (Simulator.with_value (without_signal (snd x))))
    with (fun x : Simulator.loop_state * Simulator.row => without_signal (Simulator.with_value (snd x))) in H
    by reflexivity.
  exact H.
Qed.

Lemma Forall2_Qeq_map {A} (l : list Q) (xs : list A) (f g : A -> Q) :
  Forall2 Qeq l (map f xs) -> Forall (fun y => f y == g y) xs -> Forall2 Qeq l (map g xs).
Proof.
  revert l. induction xs as [|y xs IH]; intros l H Hfg; inversion H as [|a b l' m' Hab Hrest]; subst;
    [constructor|].
  inversion Hfg as [|? ? Hy Hfg']; subst.
  constructor; [rewrite Hab; exact Hy | apply IH; assumption].
Qed.

Lemma cumprod_pct_change (xs : list Q) :
  forall p a a', 0 < p -> a == a' -> Forall (fun v => 0 < v) xs ->
  Forall2 Qeq (Returns.cumprod_from a (map (fun r => 1 + r) (Metrics.pct_change_from p xs)))
              (map (fun x => a' * (x / p)) xs).
Proof.
  induction xs as [|x xs IH]; intros p a a' Hp Ha Hxs; [constructor|].
  inversion Hxs as [|? ? Hx Hrest]; subst.
  cbn [Metrics.pct_change_from map Returns.cumprod_from].
  assert (E : a * (1 + (x / p - 1)) == a' * (x / p)) by (rewrite Ha; ring).
  constructor; [exact E|].
  eapply Forall2_Qeq_map; [apply IH; [exact Hx | exact E | exact Hrest]|].
  eapply Forall_impl; [|exact Hrest]. intros y _. cbv beta.
  field. split; apply Q_nonzero_of_pos; assumption.
Qed.

Lemma cumprod_daily_returns (xs : list Q) :
  Forall (fun v => 0 < v) xs ->
  Forall2 (fun c x => c == x / hd 0 xs)
    (Returns.cumprod (map (fun r => 1 + r) (Metrics.daily_returns xs))) xs.
Proof.
  intros Hxs. destruct xs as [|x0 xs]; [constructor|].
  inversion Hxs as [|? ? Hx0 Hrest]; subst.
  unfold Returns.cumprod. cbn [Metrics.daily_returns map Returns.cumprod_from hd].
  constructor; [field; apply Q_nonzero_of_pos; exact Hx0|].
  pose proof (cumprod_pct_change xs x0 (1 * (1 + 0)) 1 Hx0 ltac:(ring) Hrest) as H.
  clear -H. revert H. generalize (Returns.cumprod_from (1 * (1 + 0))
            (map (fun r => 1 + r) (Metrics.pct_change_from x0 xs))).
  induction xs as [|y xs IH]; intros l H; inversion H as [|c ? l' ? Hc Hl]; subst; constructor.
  - rewrite Hc. ring.
  - apply IH. exact Hl.
Qed.

(** For positive closes, the Backtester [Cumulative_Returns] column is each close divided by the first close. *)
Theorem backtester_cumulative_returns (close : list Q) :
  Forall (fun v => 0 < v) close ->
  Forall2 (fun c x => c == x / hd 0 close) (Returns.Backtester_Cumulative_Returns close) close.
Proof. exact (cumprod_daily_returns close). Qed.

(** With a fee below the initial balance and positive closes, the Simulator [Cumulative_Returns] column is each portfolio value over the first one, less 1. *)
Theorem simulator_cumulative_returns (cfg : Simulator.config) (inp : list (Q * Q)) :
  0 <= Simulator.transaction_cost cfg ->
  Simulator.transaction_cost cfg < Simulator.initial_balance cfg ->
  Forall (fun x => 0 < snd x) inp ->
  let pv := map Simulator.Portfolio_Value (Simulator.execute_trade cfg inp) in
  Forall2 (fun c v => c == v / hd 0 pv - 1) (Returns.Cumulative_Returns pv) pv.
Proof.
  intros H0 H1 H2. cbv zeta.
  pose proof (trace_values_positive cfg H0 H1 inp H2) as Hpos.
  pose proof (cumprod_daily_returns _ Hpos) as H.
  unfold Returns.Cumulative_Returns, Returns.Daily_Return.
  revert H. generalize (Returns.cumprod (map (fun r => 1 + r)
     (Metrics.daily_returns (map Simulator.Portfolio_Value (Simulator.execute_trade cfg inp))))).
  generalize (map Simulator.Portfolio_Value (Simulator.execute_trade cfg inp)) at 2 4.
  intros xs l H. induction H; constructor; [rewrite H; reflexivity | exact IHForall2].
Qed.

Lemma nth_error_combine {A B} (l1 : list A) (l2 : list B) i :
  nth_error (combine l1 l2) i
  = match nth_error l1 i, nth_error l2 i with
    | Some a, Some b => Some (a, b)
    | _, _ => None
    end.
Proof.
  revert l2 i. induction l1 as [|a l1 IH]; intros [|b l2] [|i]; cbn; try reflexivity.
  - destruct (nth_error l1 i); reflexivity.
  - apply IH.
Qed.

Lemma nth_error_removelast {A} (xs : list A) j :
  (S j < length xs)%nat -> nth_error (removelast xs) j = nth_error xs j.
Proof.
  revert j. induction xs as [|x xs IH]; intros j H; [cbn in H; lia|].
  destruct xs as [|y xs]; [cbn in H; lia|].
  destruct j as [|j]; [reflexivity|].
  change (removelast (x :: y :: xs)) with (x :: removelast (y :: xs)).
  cbn [nth_error]. apply IH. cbn in H |- *. lia.
Qed.

Lemma nth_error_shift1 {A} (xs : list A) i :
  (i < length xs)%nat ->
  nth_error (shift1 xs) i = Some (match i with O => None | S j => nth_error xs j end).
Proof.
  intros H. destruct xs as [|x xs]; [cbn in H; lia|].
  unfold shift1. destruct i as [|j]; [reflexivity|].
  cbn [nth_error]. rewrite nth_error_map, nth_error_removelast by exact H.
  destruct (nth_error (x :: xs) j) eqn:E; [reflexivity|].
  apply nth_error_None in E. cbn in H, E. lia.
Qed.

Lemma ffill_keep {A} (xs : list (option A)) :
  forall last i v, nth_error xs i = Some (Some v) -> nth_error (ffill last xs) i = Some (Some v).
Proof.
  induction xs as [|[x|] xs IH]; intros last [|i] v H; cbn in H |- *; try discriminate;
    [exact H | apply IH; exact H | apply IH; exact H].
Qed.

Lemma ffill_head_none {A} (xs : list (option A)) :
  nth_error xs 0 = Some None -> nth_error (ffill None xs) 0 = Some None.
Proof. destruct xs as [|[x|] xs]; cbn; congruence. Qed.

Lemma stage5 (self : Backtester.backtester) (inp : list (Q * Q)) k s c :
  nth_error inp k = Some (s, c) ->
  let ib := Backtester.initial_balance self in
  let tc := Backtester.transaction_cost self in
  let R5 :=
    set_where (fun r => Qeq_bool (F_Signal r) 1) (fun r =>
        mkFrameRow (F_Signal r) (F_Close r) (F_Position r) (F_Shares r)
          (nan_add (F_Balance r) (Some (- (F_Shares r * F_Close r + tc))))
          (F_Transaction_Cost r) (F_Portfolio_Value r))
    (set_where (fun r => Qeq_bool (F_Signal r) 1) (fun r =>
        mkFrameRow (F_Signal r) (F_Close r) (F_Position r) (F_Shares r)
          (F_Balance r) tc (F_Portfolio_Value r))
    (set_where (fun r => Qeq_bool (F_Signal r) (-1)) (fun r =>
        mkFrameRow (F_Signal r) (F_Close r) (F_Position r) 0
          (F_Balance r) (F_Transaction_Cost r) (F_Portfolio_Value r))
    (set_where (fun r => Qeq_bool (F_Signal r) 1) (fun r =>
        mkFrameRow (F_Signal r) (F_Close r) (F_Position r)
          (match F_Balance r with Some b => (b - tc) / F_Close r | None => 0 end)
          (F_Balance r) (F_Transaction_Cost r) (F_Portfolio_Value r))
    (map (fun '(s, c) => mkFrameRow s c 0 0 (Some ib) 0 (Some ib)) inp)))) in
  exists r5, nth_error R5 k = Some r5 /\ F_Signal r5 = s /\ F_Close r5 = c
    /\ F_Shares r5 = (if Qeq_bool s 1 then (ib - tc) / c else 0)
    /\ F_Balance r5 = Some (if Qeq_bool s 1 then ib + - ((ib - tc) / c * c + tc) else ib).
Proof.
  intros H. cbv zeta. unfold set_where. rewrite !nth_error_map, H. cbn [option_map].
  eexists; split; [reflexivity|]. cbn [F_Signal F_Close F_Shares F_Balance].
  destruct (Qeq_bool s 1) eqn:Eb; destruct (Qeq_bool s (-1)) eqn:Es;
    [apply Qeq_bool_iff in Eb, Es; rewrite Eb in Es; discriminate| | |];
  do 6 (rewrite ?Eb, ?Es; cbv beta iota;
        cbn [F_Signal F_Close F_Shares F_Balance F_Position F_Transaction_Cost F_Portfolio_Value nan_add]);
  repeat split.
Qed.

Lemma backtest_row_values (self : Backtester.backtester) (inp : list (Q * Q))
    (i : nat) (s c : Q) (r : frame_row) :
  Forall (fun x => ~ snd x == 0) inp ->
  nth_error inp i = Some (s, c) ->
  nth_error (Backtester.backtest self inp) i = Some r ->
  let ib := Backtester.initial_balance self in
  let tc := Backtester.transaction_cost self in
  (~ s == 1 -> ~ s == -1 ->
     F_Shares r == 0 /\ F_Balance r = Some ib
     /\ exists v, F_Portfolio_Value r = Some v /\ v == ib)
  /\ (s == 1 ->
        F_Shares r == (ib - tc) / c
        /\ (exists b, F_Balance r = Some b /\ b == 0)
        /\ (exists v, F_Portfolio_Value r = Some v /\ v == ib - tc))
  /\ (s == -1 -> i = O -> F_Balance r = None /\ F_Portfolio_Value r = None)
  /\ (forall j s' c', s == -1 -> i = S j -> nth_error inp j = Some (s', c') ->
        F_Shares r == 0
        /\ exists v, F_Portfolio_Value r = Some v
           /\ v == ib + (if Qeq_bool s' 1 then (ib - tc) / c' * c else 0) - tc).
Proof.
  intros Hnz Hi Hr. cbv zeta.
  pose proof (stage5 self inp i s c Hi) as H5. cbv zeta in H5.
  destruct H5 as [r5 [H5 [Hs5 [Hc5 [Hsh5 Hb5]]]]].
  unfold Backtester.backtest in Hr. cbv zeta in Hr.
  set (R5 := set_where _ _ (set_where _ _ (set_where _ _ (set_where _ _ (map _ inp))))) in *.
  set (R6 := map _ (combine R5 _)) in *.
  set (P := map _ (ffill None _)) in *.
  set (R7 := map _ (combine R6 P)) in *.
  set (B := ffill None (map F_Balance R7)) in *.
  (* lengths *)
  assert (HlenR5 : (i < length R5)%nat) by (apply nth_error_Some; rewrite H5; discriminate).
  assert (HlP : length P = length R6).
  { unfold P, R6. rewrite !length_map, ffill_length, !length_map, length_combine, shift1_length, length_map.
    lia. }
  assert (HlR6 : length R6 = length R5).
  { unfold R6. rewrite length_map, length_combine, shift1_length, length_map. lia. }
  (* the row after the sell update *)
  assert (H6 : exists ps, nth_error (shift1 (map F_Shares R5)) i = Some ps
                /\ ps = match i with O => None | S j => nth_error (map F_Shares R5) j end).
  { eexists; split; [apply nth_error_shift1; rewrite length_map; exact HlenR5|reflexivity]. }
  destruct H6 as [ps [Hps Eps]].
  assert (E6 : exists r6, nth_error R6 i = Some r6 /\ F_Signal r6 = s /\ F_Close r6 = c
     /\ F_Shares r6 = F_Shares r5
     /\ F_Balance r6 = if Qeq_bool s (-1)
                       then nan_add (F_Balance r5)
                              (option_map (fun x => x * c - Backtester.transaction_cost self) ps)
                       else F_Balance r5).
  { eexists; split; [unfold R6; rewrite nth_error_map, nth_error_combine, H5, Hps; reflexivity|].
    cbv beta iota. rewrite Hs5. destruct (Qeq_bool s (-1)); cbn; rewrite ?Hs5, ?Hc5; repeat split. }
  destruct E6 as [r6 [E6 [Hs6 [Hc6 [Hsh6 Hb6]]]]].
  assert (EP : exists z, nth_error P i = Some z).
  { destruct (nth_error P i) eqn:E; [eauto|]. apply nth_error_None in E. lia. }
  destruct EP as [z EP].
  assert (E7 : nth_error (map F_Balance R7) i = Some (F_Balance r6)).
  { unfold R7. rewrite !nth_error_map, nth_error_combine, E6, EP. reflexivity. }
  assert (Hps0 : ps = None -> i = O).
  { intros Hn. rewrite Eps in Hn. destruct i as [|j]; [reflexivity|].
    rewrite nth_error_map in Hn. destruct (nth_error R5 j) eqn:Ej; [discriminate|].
    apply nth_error_None in Ej. lia. }
  assert (EB : nth_error B i = Some (F_Balance r6)).
  { unfold B. destruct (F_Balance r6) as [v|] eqn:Ev.
    - apply ffill_keep. rewrite E7. reflexivity.
    - assert (i = O) as ->.
      { rewrite Hb5 in Hb6. destruct (Qeq_bool s (-1)); [|discriminate].
        destruct ps; [discriminate|]. apply Hps0. reflexivity. }
      apply ffill_head_none. rewrite E7. reflexivity. }
  rewrite !nth_error_map, nth_error_combine in Hr.
  unfold R7 in Hr. rewrite !nth_error_map, nth_error_combine, E6, EP, EB in Hr.
  cbn in Hr. injection Hr as <-. cbn [F_Shares F_Balance F_Portfolio_Value F_Close].
  assert (Hc0 : ~ c == 0).
  { apply nth_error_In in Hi. rewrite Forall_forall in Hnz. exact (Hnz _ Hi). }
  assert (Hprev : forall j s' c', nth_error inp j = Some (s', c') ->
            nth_error (map F_Shares R5) j
            = Some (if Qeq_bool s' 1
                    then (Backtester.initial_balance self - Backtester.transaction_cost self) / c'
                    else 0)).
  { intros j s' c' Hj. pose proof (stage5 self inp j s' c' Hj) as H5'. cbv zeta in H5'.
    destruct H5' as [r5' [H5' [_ [_ [Hsh5' _]]]]]. fold R5 in H5'.
    rewrite nth_error_map, H5'. cbn. rewrite Hsh5'. reflexivity. }
  rewrite Hsh6, Hb6, Hc6, Hsh5, Hb5.
  set (ib := Backtester.initial_balance self) in *.
  set (tc := Backtester.transaction_cost self) in *.
  split; [|split; [|split]].
  - intros Hn1 Hm1.
    destruct (Qeq_bool s 1) eqn:Eb; [apply Qeq_bool_iff in Eb; contradiction|].
    destruct (Qeq_bool s (-1)) eqn:Es; [apply Qeq_bool_iff in Es; contradiction|].
    cbn. split; [reflexivity|split; [reflexivity|]]. eexists; split; [reflexivity|ring].
  - intros E1. assert (Eb : Qeq_bool s 1 = true) by (apply Qeq_bool_iff; exact E1).
    assert (Es : Qeq_bool s (-1) = false).
    { destruct (Qeq_bool s (-1)) eqn:Es; [|reflexivity].
      apply Qeq_bool_iff in Es. rewrite E1 in Es. discriminate. }
    rewrite Eb, Es. cbn. split; [reflexivity|split].
    + eexists; split; [reflexivity|field; exact Hc0].
    + eexists; split; [reflexivity|field; exact Hc0].
  - intros Em1 ->. assert (Es : Qeq_bool s (-1) = true) by (apply Qeq_bool_iff; exact Em1).
    assert (Eb : Qeq_bool s 1 = false).
    { destruct (Qeq_bool s 1) eqn:Eb; [|reflexivity].
      apply Qeq_bool_iff in Eb. rewrite Em1 in Eb. discriminate. }
    rewrite Eb, Es. rewrite Eps. cbn. split; reflexivity.
  - intros j s' c' Em1 -> Hj. assert (Es : Qeq_bool s (-1) = true) by (apply Qeq_bool_iff; exact Em1).
    assert (Eb : Qeq_bool s 1 = false).
    { destruct (Qeq_bool s 1) eqn:Eb; [|reflexivity].
      apply Qeq_bool_iff in Eb. rewrite Em1 in Eb. discriminate. }
    rewrite Eb, Es, Eps, (Hprev j s' c' Hj). cbn [option_map nan_add].
    split; [reflexivity|]. eexists; split; [reflexivity|].
    destruct (Qeq_bool s' 1); ring.
Qed.

(** For non-zero closes, a [Backtester.backtest] row carries the values of its own signal: a Hold row the initial balance, a Buy row the balance less the fee (cash 0), a first-row Sell NaN, and a later Sell the initial balance plus the previous row shares at this close, less the fee. *)
Theorem backtester_row_values (self : Backtester.backtester) (inp : list (Q * Q))
    (i : nat) (s c : Q) (r : frame_row) :
  Forall (fun x => ~ snd x == 0) inp ->
  nth_error inp i = Some (s, c) ->
  nth_error (Backtester.backtest self inp) i = Some r ->
  let ib := Backtester.initial_balance self in
  let tc := Backtester.transaction_cost self in
  (~ s == 1 -> ~ s == -1 ->
     F_Shares r == 0 /\ F_Balance r = Some ib
     /\ exists v, F_Portfolio_Value r = Some v /\ v == ib)
  /\ (s == 1 ->
        F_Shares r == (ib - tc) / c
        /\ (exists b, F_Balance r = Some b /\ b == 0)
        /\ (exists v, F_Portfolio_Value r = Some v /\ v == ib - tc))
  /\ (s == -1 -> i = O -> F_Balance r = None /\ F_Portfolio_Value r = None)
  /\ (forall j s' c', s == -1 -> i = S j -> nth_error inp j = Some (s', c') ->
        F_Shares r == 0
        /\ exists v, F_Portfolio_Value r = Some v
           /\ v == ib + (if Qeq_bool s' 1 then (ib - tc) / c' * c else 0) - tc).
Proof. exact (backtest_row_values self inp i s c r). Qed.

Lemma map_fst_combine {A B} (l1 : list A) (l2 : list B) :
  (length l1 <= length l2)%nat -> map fst (combine l1 l2) = l1.
Proof.
  revert l2. induction l1 as [|a l1 IH]; intros [|b l2] H; cbn in *; try reflexivity; try lia.
  f_equal. apply IH. lia.
Qed.

Lemma map_snd_combine {A B} (l1 : list A) (l2 : list B) :
  (length l2 <= length l1)%nat -> map snd (combine l1 l2) = l2.
Proof.
  revert l2. induction l1 as [|a l1 IH]; intros [|b l2] H; cbn in *; try reflexivity; try lia.
  f_equal. apply IH. lia.
Qed.

Lemma set_where_signal p f rows :
  (forall r, F_Signal (f r) = F_Signal r) ->
  map F_Signal (set_where p f rows) = map F_Signal rows.
Proof.
  intros Hf. unfold set_where. rewrite map_map. apply map_ext. intros r. destruct (p r); auto.
Qed.

Lemma Qeq_bool_1_m1 s : Qeq_bool s 1 = true -> Qeq_bool s (-1) = false.
Proof.
  intros E. destruct (Qeq_bool s (-1)) eqn:E'; [|reflexivity].
  apply Qeq_bool_iff in E, E'. rewrite E in E'. discriminate.
Qed.

Lemma latest_direction_ffill (sigs : list Q) :
  forall last,
  map (fun o => match o with Some z => z | None => 0%Z end)
    (ffill last (map (fun z => if Z.eqb z 0 then None else Some z)
       (map (fun s => ((if Qeq_bool s 1 then 1 else 0) - (if Qeq_bool s (-1) then 1 else 0))%Z) sigs)))
  = latest_direction (match last with Some z => z | None => 0%Z end) sigs.
Proof.
  induction sigs as [|s rest IH]; intros last; [reflexivity|].
  cbn [map latest_direction].
  destruct (Qeq_bool s 1) eqn:Eb.
  - rewrite (Qeq_bool_1_m1 s Eb). cbn. rewrite (IH (Some 1%Z)). reflexivity.
  - destruct (Qeq_bool s (-1)) eqn:Es; cbn.
    + rewrite (IH (Some (-1)%Z)). reflexivity.
    + rewrite IH. reflexivity.
Qed.

(** The [Position] column of [Backtester.backtest] is the direction of the latest Buy (1) or Sell (-1) signal at or before each date, 0 before the first one. *)
Theorem backtester_position (self : Backtester.backtester) (inp : list (Q * Q)) :
  map F_Position (Backtester.backtest self inp) = latest_direction 0 (map fst inp).
Proof.
  unfold Backtester.backtest. cbv zeta.
  set (R5 := set_where _ _ (set_where _ _ (set_where _ _ (set_where _ _ (map _ inp))))).
  set (R6 := map _ (combine R5 _)).
  set (P := map _ (ffill None _)).
  set (R7 := map _ (combine R6 P)).
  set (B := ffill None (map F_Balance R7)).
  assert (HlR6 : length R6 = length R5).
  { unfold R6. rewrite length_map, length_combine, shift1_length, length_map. lia. }
  assert (HlP : length P = length R6).
  { unfold P. rewrite !length_map, ffill_length, !length_map. reflexivity. }
  assert (HlR7 : length R7 = length R6).
  { unfold R7. rewrite length_map, length_combine. lia. }
  assert (HlB : length B = length R7).
  { unfold B. rewrite ffill_length, length_map. reflexivity. }
  rewrite !map_map. cbn [F_Position].
  transitivity (map (fun x : frame_row * option Q => F_Position (fst x)) (combine R7 B)).
  { apply map_ext. intros [r b]. reflexivity. }
  rewrite <- (map_map fst F_Position), map_fst_combine by lia.
  unfold R7. rewrite map_map.
  transitivity (map (fun x : frame_row * Z => snd x) (combine R6 P)).
  { apply map_ext. intros [r z]. reflexivity. }
  rewrite map_snd_combine by lia.
  assert (HS5 : map F_Signal R5 = map fst inp).
  { unfold R5. rewrite !set_where_signal by reflexivity. rewrite map_map.
    apply map_ext. intros [s c]. reflexivity. }
  assert (HS6 : map F_Signal R6 = map fst inp).
  { rewrite <- HS5. unfold R6. rewrite map_map.
    transitivity (map (fun x : frame_row * option Q => F_Signal (fst x))
                    (combine R5 (shift1 (map F_Shares R5)))).
    { apply map_ext. intros [r ps]. destruct (Qeq_bool (F_Signal r) (-1)); reflexivity. }
    rewrite <- (map_map fst F_Signal), map_fst_combine; [reflexivity|].
    rewrite shift1_length, length_map. lia. }
  rewrite <- HS6, <- (latest_direction_ffill (map F_Signal R6) None).
  unfold P. rewrite !map_map. reflexivity.
Qed.

(** The total return of [Backtester.calculate_metrics] equals the Simulator formula applied to the portfolio values and the initial balance. *)
Theorem backtester_total_return (ib : Q) (pv : list Q) :
  ~ ib == 0 ->
  opt_Qeq (BacktesterMetrics.total_return (Returns.Strategy_Cumulative_Returns ib pv))
          (Metrics.total_return ib pv).
Proof.
  intros Hib. unfold BacktesterMetrics.total_return, Metrics.total_return, Returns.Strategy_Cumulative_Returns.
  rewrite <- map_rev. destruct (rev pv) as [|v rest]; cbn; [exact I|].
  field. exact Hib.
Qed.

Lemma Qeq_bool_compat a b : a == b -> forall c, Qeq_bool a c = Qeq_bool b c.
Proof.
  intros E c. destruct (Qeq_bool b c) eqn:Eb.
  - apply Qeq_bool_iff. apply Qeq_bool_iff in Eb. rewrite E. exact Eb.
  - destruct (Qeq_bool a c) eqn:Ea; [|reflexivity].
    apply Qeq_bool_iff in Ea. rewrite E in Ea. apply Qeq_bool_iff in Ea. congruence.
Qed.

Lemma Qle_bool_compat a b : a == b -> forall c, Qle_bool a c = Qle_bool b c.
Proof.
  intros E c. destruct (Qle_bool b c) eqn:Eb.
  - apply Qle_bool_iff. apply Qle_bool_iff in Eb. rewrite E. exact Eb.
  - destruct (Qle_bool a c) eqn:Ea; [|reflexivity].
    apply Qle_bool_iff in Ea. rewrite E in Ea. apply Qle_bool_iff in Ea. congruence.
Qed.

Lemma Qeq_bool_scale a k : 0 < k -> Qeq_bool (a / k) 0 = Qeq_bool a 0.
Proof.
  intros Hk. destruct (Qeq_bool a 0) eqn:Ea.
  - apply Qeq_bool_iff in Ea. apply Qeq_bool_iff. rewrite Ea. field. apply Q_nonzero_of_pos. exact Hk.
  - destruct (Qeq_bool (a / k) 0) eqn:E; [|reflexivity].
    apply Qeq_bool_iff in E. exfalso.
    assert (a == 0). { setoid_replace a with (a / k * k) by (field; apply Q_nonzero_of_pos; exact Hk).
      rewrite E. ring. }
    apply Qeq_bool_iff in H. congruence.
Qed.

Lemma Qle_bool_scale a k : 0 < k -> Qle_bool (a / k) 0 = Qle_bool a 0.
Proof.
  intros Hk. destruct (Qle_bool a 0) eqn:Ea.
  - apply Qle_bool_iff in Ea. apply Qle_bool_iff. apply Qle_shift_div_r; [exact Hk|].
    setoid_replace (0 * k) with 0 by ring. exact Ea.
  - destruct (Qle_bool (a / k) 0) eqn:E; [|reflexivity].
    apply Qle_bool_iff in E. exfalso.
    assert (a <= 0).
    { setoid_replace a with (a / k * k) by (field; apply Q_nonzero_of_pos; exact Hk).
      setoid_replace 0 with (0 * k) by ring. apply Qmult_le_compat_r; [exact E|apply Qlt_le_weak; exact Hk]. }
    apply Qle_bool_iff in H. congruence.
Qed.

Lemma fdiv_scale a b a' b' k :
  0 < k -> a' == a / k -> b' == b / k -> feq (Metrics.fdiv a' b') (Metrics.fdiv a b).
Proof.
  intros Hk Ea Eb. unfold Metrics.fdiv.
  rewrite (Qeq_bool_compat _ _ Eb), (Qeq_bool_compat _ _ Ea), (Qle_bool_compat _ _ Ea).
  rewrite (Qeq_bool_scale b k Hk), (Qeq_bool_scale a k Hk), (Qle_bool_scale a k Hk).
  destruct (Qeq_bool b 0) eqn:Eb0; [destruct (Qeq_bool a 0); [|destruct (Qle_bool a 0)]; exact I|].
  assert (Hb : ~ b == 0) by (intros E; apply Qeq_bool_iff in E; congruence).
  assert (Hk0 : ~ k == 0) by (apply Q_nonzero_of_pos; exact Hk).
  cbn. rewrite Ea, Eb. field. split; assumption.
Qed.

Lemma Qmax_scale m x k : 0 < k -> Qmax (m / k) (x / k) == Qmax m x / k.
Proof.
  intros Hk. assert (Hk' : 0 <= / k) by (apply Qlt_le_weak, Qinv_lt_0_compat; exact Hk).
  destruct (Qlt_le_dec x m) as [H|H]; [apply Qlt_le_weak in H|].
  - rewrite !Q.max_l; [reflexivity|exact H|].
    apply Qmult_le_compat_r; assumption.
  - rewrite !Q.max_r; [reflexivity|exact H|].
    apply Qmult_le_compat_r; assumption.
Qed.

Lemma drawdowns_scale_from (xs : list Q) :
  forall m m' k, 0 < k -> m' == m / k ->
  Forall2 feq
    (map (fun '(v, mx) => Metrics.fdiv (v - mx) mx)
       (combine (map (fun v => v / k) xs) (Metrics.running_max_from m' (map (fun v => v / k) xs))))
    (map (fun '(v, mx) => Metrics.fdiv (v - mx) mx) (combine xs (Metrics.running_max_from m xs))).
Proof.
  induction xs as [|x xs IH]; intros m m' k Hk Em; cbn; constructor.
  - apply (fdiv_scale _ _ _ _ k Hk).
    + rewrite Em, Qmax_scale by exact Hk. field. apply Q_nonzero_of_pos. exact Hk.
    + rewrite Em, Qmax_scale by exact Hk. reflexivity.
  - apply IH; [exact Hk|]. rewrite Em, Qmax_scale by exact Hk. reflexivity.
Qed.

Lemma nanmin_step_compat a a' x x' :
  feq a a' -> feq x x' -> feq (Metrics.nanmin_step a x) (Metrics.nanmin_step a' x').
Proof.
  destruct a, a', x, x'; cbn; try tauto; intros E1 E2; try exact I; try assumption.
  rewrite E1, E2. reflexivity.
Qed.

Lemma nanmin_fold_compat (xs ys : list Metrics.float) :
  Forall2 feq xs ys -> forall a b, feq a b ->
  feq (fold_left Metrics.nanmin_step xs a) (fold_left Metrics.nanmin_step ys b).
Proof.
  induction 1 as [|x y xs ys Hxy Hrest IH]; intros a b Hab; [exact Hab|].
  cbn. apply IH. apply nanmin_step_compat; assumption.
Qed.

(** The maximum drawdown of [Backtester.calculate_metrics], taken on the values divided by a positive initial balance, equals the one taken on the portfolio values themselves. *)
Theorem backtester_max_drawdown (ib : Q) (pv : list Q) :
  0 < ib ->
  feq (BacktesterMetrics.max_drawdown (Returns.Strategy_Cumulative_Returns ib pv))
      (Metrics.max_drawdown pv).
Proof.
  intros Hib. unfold BacktesterMetrics.max_drawdown, Metrics.max_drawdown, Metrics.nanmin.
  assert (H : feq (fold_left Metrics.nanmin_step
                     (Metrics.drawdowns (Returns.Strategy_Cumulative_Returns ib pv)) Metrics.NaN)
                  (fold_left Metrics.nanmin_step (Metrics.drawdowns pv) Metrics.NaN)).
  { apply nanmin_fold_compat; [|exact I].
    unfold Metrics.drawdowns, Metrics.rolling_max, Returns.Strategy_Cumulative_Returns.
    destruct pv as [|v rest]; [constructor|]. cbn [map combine]. constructor.
    - apply (fdiv_scale _ _ _ _ ib Hib); [field; apply Q_nonzero_of_pos; exact Hib|reflexivity].
    - apply drawdowns_scale_from; [exact Hib|reflexivity]. }
  revert H. generalize (fold_left Metrics.nanmin_step (Metrics.drawdowns (Returns.Strategy_Cumulative_Returns ib pv)) Metrics.NaN).
  generalize (fold_left Metrics.nanmin_step (Metrics.drawdowns pv) Metrics.NaN).
  intros [a| | |] [b| | |]; cbn; try tauto. intros E. rewrite E. reflexivity.
Qed.

(** The win rate of [Backtester.calculate_metrics] is 0 when no row signals Buy or Sell, and otherwise exceeds 100 exactly when positive returns outnumber the Buy and Sell rows. *)
Theorem backtester_win_rate (signal sr : list Q) :
  (trade_signals signal = 0%nat -> BacktesterMetrics.win_rate signal sr == 0) /\
  ((0 < trade_signals signal)%nat ->
   (BacktesterMetrics.win_rate signal sr <= 100 <-> (positive_returns sr <= trade_signals signal)%nat)).
Proof.
  unfold BacktesterMetrics.win_rate. fold (trade_signals signal). fold (positive_returns sr).
  split.
  - intros H. rewrite H. reflexivity.
  - intros H. apply Nat.ltb_lt in H as H'. rewrite H'.
    set (w := positive_returns sr). set (t := trade_signals signal).
    assert (Ht : 0 < inject_Z (Z.of_nat t)).
    { change 0 with (inject_Z 0). rewrite <- Zlt_Qlt. lia. }
    setoid_replace 100 with (inject_Z (Z.of_nat t) / inject_Z (Z.of_nat t) * 100) at 2
      by (field; apply Q_nonzero_of_pos; exact Ht).
    split; intros Hle.
    + apply Qmult_le_r in Hle; [|reflexivity].
      apply Qmult_le_r in Hle; [|apply Qinv_lt_0_compat; exact Ht].
      rewrite <- Zle_Qle in Hle. lia.
    + apply Qmult_le_compat_r; [|discriminate].
      apply Qmult_le_compat_r; [|apply Qlt_le_weak, Qinv_lt_0_compat; exact Ht].
      rewrite <- Zle_Qle. lia.
Qed.

Lemma combine_map_same {A B C} (f : A -> B) (g : A -> C) (l : list A) :
  combine (map f l) (map g l) = map (fun x => (f x, g x)) l.
Proof. induction l as [|x l IH]; cbn; [reflexivity|]. rewrite IH. reflexivity. Qed.

Lemma repeat_map {A B} (b : B) (l : list A) : repeat b (length l) = map (fun _ => b) l.
Proof. induction l as [|x l IH]; cbn; [reflexivity|]. rewrite IH. reflexivity. Qed.

Lemma assign_map {A} (f : A -> bool) (v : Q) (g : A -> Q) (l : list A) :
  Strategies.assign (map f l) v (map g l) = map (fun x => if f x then v else g x) l.
Proof.
  unfold Strategies.assign. rewrite combine_map_same, map_map. reflexivity.
Qed.

Lemma crossover_spec close a b :
  Strategies.moving_average_crossover close a b =
  map (fun i => crossover_value (Strategies.rolling_mean_at close a i)
                                (Strategies.rolling_mean_at close b i))
      (seq 0 (length close)).
Proof.
  unfold Strategies.moving_average_crossover, Strategies.sma.
  rewrite combine_map_same, !map_map.
  replace (repeat 0 (length close)) with (map (fun _ : nat => 0) (seq 0 (length close)))
    by (rewrite <- repeat_map, length_seq; reflexivity).
  rewrite assign_map, assign_map.
  apply map_ext. intros i. unfold crossover_value.
  destruct (Strategies.opt_lt (Strategies.rolling_mean_at close a i) (Strategies.rolling_mean_at close b i));
    reflexivity.
Qed.

Lemma triple_spec close a b c :
  Strategies.triple_ma_strategy close a b c =
  map (fun i => triple_value (Strategies.rolling_mean_at close a i)
                             (Strategies.rolling_mean_at close b i)
                             (Strategies.rolling_mean_at close c i))
      (seq 0 (length close)).
Proof.
  unfold Strategies.triple_ma_strategy, Strategies.sma.
  rewrite !combine_map_same, !map_map.
  replace (repeat 0 (length close)) with (map (fun _ : nat => 0) (seq 0 (length close)))
    by (rewrite <- repeat_map, length_seq; reflexivity).
  rewrite ?map_map, assign_map, assign_map.
  apply map_ext. intros i. unfold triple_value. reflexivity.
Qed.

(** Swapping the two windows of [moving_average_crossover] negates every signal. *)
Theorem crossover_swap_windows (close : list Q) (a b : nat) :
  Strategies.moving_average_crossover close b a =
  map Qopp (Strategies.moving_average_crossover close a b).
Proof.
  rewrite !crossover_spec, map_map. apply map_ext. intros i.
  unfold crossover_value, Strategies.opt_lt, Strategies.opt_gt.
  destruct (Strategies.rolling_mean_at close a i) as [x|], (Strategies.rolling_mean_at close b i) as [y|];
    try reflexivity.
  destruct (Qle_bool x y) eqn:E1, (Qle_bool y x) eqn:E2; try reflexivity.
  exfalso. destruct (Qlt_le_dec x y) as [H|H].
  - apply Qlt_le_weak, Qle_bool_iff in H. congruence.
  - apply Qle_bool_iff in H. congruence.
Qed.

(** The [moving_average_crossover] signal is 0 on every row before both moving averages have a full window, and everywhere when a window is 0. *)
Theorem crossover_warm_up (close : list Q) (a b i : nat) :
  (i < length close)%nat -> (S i < Nat.max a b \/ a = 0 \/ b = 0)%nat ->
  nth_error (Strategies.moving_average_crossover close a b) i = Some 0.
Proof.
  intros Hi Hw. rewrite crossover_spec, nth_error_map, nth_error_seq.
  apply Nat.ltb_lt in Hi. rewrite Hi. cbn.
  assert (Ha : Strategies.rolling_mean_at close a i = None \/ Strategies.rolling_mean_at close b i = None).
  { unfold Strategies.rolling_mean_at.
    destruct (Nat.max_spec a b) as [[Hab Hm]|[Hab Hm]]; rewrite Hm in Hw;
      destruct Hw as [Hw|[Hw|Hw]]; try (subst; cbn; tauto);
      apply Nat.ltb_lt in Hw; rewrite Hw, orb_true_r; tauto. }
  unfold crossover_value, Strategies.opt_lt, Strategies.opt_gt.
  destruct Ha as [-> | ->]; [reflexivity|].
  destruct (Strategies.rolling_mean_at close a i); reflexivity.
Qed.

Lemma skipn_repeat' {A} (x : A) j n : skipn j (repeat x n) = repeat x (n - j).
Proof.
  revert n. induction j as [|j IH]; intros [|n]; cbn; try reflexivity.
  apply IH.
Qed.

Lemma firstn_repeat' {A} (x : A) w m : (w <= m)%nat -> firstn w (repeat x m) = repeat x w.
Proof.
  revert m. induction w as [|w IH]; intros [|m] H; cbn; try reflexivity; try lia.
  rewrite IH by lia. reflexivity.
Qed.

Lemma sum_repeat_Q (k : Q) w : fold_right Qplus 0 (repeat k w) == inject_Z (Z.of_nat w) * k.
Proof.
  induction w as [|w IH]; cbn [repeat fold_right]; [reflexivity|].
  rewrite IH, Nat2Z.inj_succ, <- Z.add_1_r, inject_Z_plus. ring.
Qed.

Lemma rolling_mean_constant k n w i :
  (i < n)%nat ->
  Strategies.rolling_mean_at (repeat k n) w i = None \/
  exists x, Strategies.rolling_mean_at (repeat k n) w i = Some x /\ x == k.
Proof.
  intros Hi. unfold Strategies.rolling_mean_at.
  destruct ((w =? 0)%nat || (S i <? w)%nat) eqn:E; [left; reflexivity|right].
  apply orb_false_iff in E as [E1 E2]. apply Nat.eqb_neq in E1. apply Nat.ltb_ge in E2.
  eexists. split; [reflexivity|].
  rewrite skipn_repeat', firstn_repeat' by lia. rewrite sum_repeat_Q.
  field. change 0 with (inject_Z 0). rewrite inject_Z_injective. lia.
Qed.

Lemma opt_cmp_equal x y :
  x == y -> Strategies.opt_lt (Some x) (Some y) = false /\ Strategies.opt_gt (Some x) (Some y) = false.
Proof.
  intros E. cbn. split; apply negb_false_iff, Qle_bool_iff; rewrite E; apply Qle_refl.
Qed.

(** On constant closes, [moving_average_crossover] signals 0 on every row. *)
Theorem crossover_constant_prices (k : Q) (n a b : nat) :
  Strategies.moving_average_crossover (repeat k n) a b = repeat 0 n.
Proof.
  rewrite crossover_spec, repeat_length.
  transitivity (map (fun _ : nat => 0) (seq 0 n)).
  - apply map_ext_in. intros i Hi. apply in_seq in Hi.
    unfold crossover_value.
    destruct (rolling_mean_constant k n a i) as [Ha|[x [Ha Hx]]]; [lia| |];
      destruct (rolling_mean_constant k n b i) as [Hb|[y [Hb Hy]]]; try lia;
      rewrite ?Ha, ?Hb; try reflexivity.
    destruct (opt_cmp_equal x y) as [-> ->]; [rewrite Hx, Hy; reflexivity|reflexivity].
  - rewrite <- (length_seq n 0) at 2. rewrite repeat_map. reflexivity.
Qed.

Lemma opt_gt_trans s m l :
  Strategies.opt_gt s m = true -> Strategies.opt_gt m l = true ->
  Strategies.opt_gt s l = true /\ Strategies.opt_lt s l = false.
Proof.
  destruct s as [x|], m as [y|], l as [z|]; cbn; try discriminate.
  intros H1 H2. apply negb_true_iff in H1, H2.
  assert (Hyx : y < x) by (apply Qnot_le_lt; intros H; apply Qle_bool_iff in H; congruence).
  assert (Hzy : z < y) by (apply Qnot_le_lt; intros H; apply Qle_bool_iff in H; congruence).
  split.
  - apply negb_true_iff. destruct (Qle_bool x z) eqn:E; [|reflexivity].
    apply Qle_bool_iff in E. exfalso. apply (Qlt_irrefl x).
    apply Qle_lt_trans with z; [exact E|]. apply Qlt_trans with y; assumption.
  - apply negb_false_iff, Qle_bool_iff. apply Qlt_le_weak, Qlt_trans with y; assumption.
Qed.

Lemma opt_lt_trans s m l :
  Strategies.opt_lt s m = true -> Strategies.opt_lt m l = true ->
  Strategies.opt_lt s l = true.
Proof.
  destruct s as [x|], m as [y|], l as [z|]; cbn; try discriminate.
  intros H1 H2. apply negb_true_iff in H1, H2.
  assert (Hyx : x < y) by (apply Qnot_le_lt; intros H; apply Qle_bool_iff in H; congruence).
  assert (Hzy : y < z) by (apply Qnot_le_lt; intros H; apply Qle_bool_iff in H; congruence).
  apply negb_true_iff. destruct (Qle_bool z x) eqn:E; [|reflexivity].
  apply Qle_bool_iff in E. exfalso. apply (Qlt_irrefl x).
  apply Qlt_le_trans with z; [|exact E]. apply Qlt_trans with y; assumption.
Qed.

(** Wherever [triple_ma_strategy] signals Buy or Sell, [moving_average_crossover] with its short and long windows gives the same signal. *)
Theorem triple_ma_agrees_with_crossover (close : list Q) (s m l i : nat) (v : Q) :
  nth_error (Strategies.triple_ma_strategy close s m l) i = Some v -> ~ v == 0 ->
  nth_error (Strategies.moving_average_crossover close s l) i = Some v.
Proof.
  rewrite triple_spec, crossover_spec, !nth_error_map.
  destruct (nth_error (seq 0 (length close)) i) as [j|]; cbn; [|discriminate].
  intros [= <-]. unfold triple_value, crossover_value.
  set (a := Strategies.rolling_mean_at close s j).
  set (b := Strategies.rolling_mean_at close m j).
  set (c := Strategies.rolling_mean_at close l j).
  destruct (Strategies.opt_lt a b && Strategies.opt_lt b c) eqn:Elt.
  - apply andb_true_iff in Elt as [H1 H2]. rewrite (opt_lt_trans a b c H1 H2). reflexivity.
  - destruct (Strategies.opt_gt a b && Strategies.opt_gt b c) eqn:Egt.
    + apply andb_true_iff in Egt as [H1 H2]. destruct (opt_gt_trans a b c H1 H2) as [-> ->]. reflexivity.
    + intros H. exfalso. apply H. reflexivity.
Qed.

Lemma assign_all_false (mask : list bool) (v : Q) (signal : list Q) :
  (forall m, In m mask -> m = false) -> length mask = length signal ->
  Strategies.assign mask v signal = signal.
Proof.
  unfold Strategies.assign.
  revert signal. induction mask as [|m mask IH]; intros [|s signal] Hm Hl; cbn in *; try discriminate;
    [reflexivity|].
  rewrite (Hm m (or_introl eq_refl)), IH; [reflexivity| |lia].
  intros m' Hm'. apply Hm. right. exact Hm'.
Qed.

Lemma band_masks_false (close : list Q) (bands : list (option R)) (f : Q -> option R -> bool) :
  (forall c, f c None = false) -> (forall c b, In c close -> In (Some b) bands -> f c (Some b) = false) ->
  forall m, In m (map (fun '((c, b) : Q * option R) => f c b) (combine close bands)) -> m = false.
Proof.
  intros Hnone Hsome m Hm. apply in_map_iff in Hm as [[c b] [<- Hin]].
  destruct b as [b|]; [|apply Hnone].
  apply Hsome; [apply (in_combine_l _ _ _ _ Hin)|apply (in_combine_r _ _ _ _ Hin)].
Qed.

Lemma mean_reversion_length close w d :
  length (MeanReversion.mean_reversion_strategy close w d) = length close.
Proof.
  unfold MeanReversion.mean_reversion_strategy, Strategies.assign, Strategies.sma.
  repeat progress rewrite ?length_map, ?length_combine, ?repeat_length, ?length_seq.
  lia.
Qed.

Lemma mean_reversion_no_band (close : list Q) (w : nat) (d : R) :
  (forall i, (i < length close)%nat ->
     MeanReversion.rolling_std_at close w i = None \/
     exists s m, MeanReversion.rolling_std_at close w i = Some s /\
       option_map Q2R (Strategies.rolling_mean_at close w i) = Some m /\
       forall c, In c close -> (m - s * d <= Q2R c <= m + s * d)%R) ->
  MeanReversion.mean_reversion_strategy close w d = repeat 0 (length close).
Proof.
  intros H. unfold MeanReversion.mean_reversion_strategy, Strategies.sma.
  rewrite map_map.
  set (ub := map _ (combine _ _)). set (lb := map _ (combine _ _)).
  assert (Hb : forall (g : R -> R -> R) (b : R),
             In (Some b) (map (fun '((m, s) : option R * option R) =>
                              match m, (match s with Some x => Some (x * d)%R | None => None end) with
                              | Some x, Some y => Some (g x y) | _, _ => None end)
                           (combine (map (fun i => option_map Q2R (Strategies.rolling_mean_at close w i)) (seq 0 (length close)))
                                    (map (MeanReversion.rolling_std_at close w) (seq 0 (length close))))) ->
             exists s m, g m (s * d)%R = b /\
               forall c, In c close -> (m - s * d <= Q2R c <= m + s * d)%R).
  { intros g b Hin. rewrite combine_map_same, map_map in Hin.
    apply in_map_iff in Hin as [i [Hi Hin]]. apply in_seq in Hin.
    destruct (H i ltac:(lia)) as [Hn|[s [m [Hs [Hm Hc]]]]].
    - rewrite Hn in Hi. destruct (option_map _ _); discriminate.
    - rewrite Hs, Hm in Hi. injection Hi as <-. exists s, m. split; [reflexivity|exact Hc]. }
  rewrite assign_all_false; [rewrite assign_all_false; [reflexivity| |]| |].
  - apply band_masks_false; [reflexivity|].
    intros c b Hc Hin. destruct (Hb Rminus b Hin) as [s [m [<- Hcb]]].
    specialize (Hcb c Hc). unfold MeanReversion.lt_band.
    destruct (Rlt_dec (Q2R c) (m - s * d)); [lra|reflexivity].
  - unfold lb. repeat progress rewrite ?length_map, ?length_combine, ?repeat_length, ?length_seq. lia.
  - apply band_masks_false; [reflexivity|].
    intros c b Hc Hin. destruct (Hb Rplus b Hin) as [s [m [<- Hcb]]].
    specialize (Hcb c Hc). unfold MeanReversion.gt_band.
    destruct (Rlt_dec (m + s * d) (Q2R c)); [lra|reflexivity].
  - unfold Strategies.assign, ub, lb.
    repeat progress rewrite ?length_map, ?length_combine, ?repeat_length, ?length_seq. lia.
Qed.

(** With a window of 1, [mean_reversion_strategy] signals 0 on every row: the sample deviation of one value is NaN. *)
Theorem mean_reversion_window_one (close : list Q) (d : R) :
  MeanReversion.mean_reversion_strategy close 1 d = repeat 0 (length close).
Proof.
  apply mean_reversion_no_band. intros i _. left.
  unfold MeanReversion.rolling_std_at, Sharpe.std. cbn [Nat.eqb orb].
  replace (S i <? 1)%nat with false by (symmetry; apply Nat.ltb_ge; lia).
  rewrite length_map, length_firstn.
  replace (Nat.min 1 _ <? 2)%nat with true; [reflexivity|].
  symmetry. apply Nat.ltb_lt. lia.
Qed.

(** On constant closes, [mean_reversion_strategy] signals 0 on every row, whatever the window and band width. *)
Theorem mean_reversion_constant_prices (k : Q) (n w : nat) (d : R) :
  MeanReversion.mean_reversion_strategy (repeat k n) w d = repeat 0 n.
Proof.
  rewrite <- (repeat_length k n) at 2.
  apply mean_reversion_no_band. intros i Hi. rewrite repeat_length in Hi.
  unfold MeanReversion.rolling_std_at.
  destruct ((w =? 0)%nat || (S i <? w)%nat) eqn:E; [left; reflexivity|].
  unfold Sharpe.std.
  destruct (length (map Q2R (firstn w (skipn (S i - w) (repeat k n)))) <? 2)%nat; [left; reflexivity|].
  right. apply orb_false_iff in E as [E1 E2]. apply Nat.eqb_neq in E1. apply Nat.ltb_ge in E2.
  rewrite skipn_repeat', firstn_repeat' by lia. rewrite map_repeat.
  exists 0%R, (Q2R k). split; [|split].
  - f_equal. rewrite mean_repeat by lia. rewrite map_repeat.
    replace (Q2R k - Q2R k)%R with 0%R by ring.
    rewrite sum_repeat. replace (INR w * 0 ^ 2)%R with 0%R by ring.
    unfold Rdiv. rewrite Rmult_0_l. apply sqrt_0.
  - unfold Strategies.rolling_mean_at.
    replace ((w =? 0)%nat || (S i <? w)%nat) with false
      by (symmetry; apply orb_false_iff; split; [apply Nat.eqb_neq|apply Nat.ltb_ge]; lia).
    cbn [option_map]. f_equal. apply Qeq_eqR.
    rewrite skipn_repeat', firstn_repeat' by lia. rewrite sum_repeat_Q.
    field. change 0 with (inject_Z 0). rewrite inject_Z_injective. lia.
  - intros c Hc. apply repeat_spec in Hc. subst c. lra.
Qed.

Lemma cumprod_from_positive (xs : list Q) :
  forall acc, 0 < acc -> Forall (fun x => 0 < x) xs -> Forall (fun v => 0 < v) (Returns.cumprod_from acc xs).
Proof.
  induction xs as [|x xs IH]; intros acc Hacc Hxs; cbn; [constructor|].
  inversion Hxs as [|? ? Hx Hrest]; subst.
  assert (H : 0 < acc * x) by (apply Qmult_lt_0_compat; assumption).
  constructor; [exact H|]. apply IH; assumption.
Qed.

Lemma cumprod_from_nondecreasing (xs : list Q) :
  forall acc, 0 < acc -> Forall (fun x => 1 <= x) xs -> nondecreasing_from acc (Returns.cumprod_from acc xs).
Proof.
  induction xs as [|x xs IH]; intros acc Hacc Hxs; cbn; [exact I|].
  inversion Hxs as [|? ? Hx Hrest]; subst.
  assert (H : acc <= acc * x).
  { setoid_replace acc with (acc * 1) at 1 by ring. apply Qmult_le_l; assumption. }
  split; [exact H|]. apply IH; [|exact Hrest].
  apply Qlt_le_trans with acc; assumption.
Qed.

(** For a non-empty series of returns above -1, [calculate_max_drawdown] is a finite number at most 0, and exactly 0 when no return is negative. *)
Theorem utils_max_drawdown (returns : list Q) :
  returns <> [] -> Forall (fun r => -1 < r) returns ->
  exists q, Utils.calculate_max_drawdown returns = Metrics.Fin q /\ q <= 0 /\
            (Forall (fun r => 0 <= r) returns -> q == 0).
Proof.
  intros Hne Hgt. unfold Utils.calculate_max_drawdown, Returns.cumprod.
  destruct (max_drawdown_positive (Returns.cumprod_from 1 (map (fun r => 1 + r) returns)))
    as [q [Hq [Hle Hnd]]].
  - destruct returns; [contradiction|discriminate].
  - apply cumprod_from_positive; [reflexivity|].
    apply Forall_map. eapply Forall_impl; [|exact Hgt]. intros r Hr.
    setoid_replace 0 with (1 + -1) by ring. apply Qplus_lt_r. exact Hr.
  - exists q. split; [exact Hq|]. split; [exact Hle|]. intros Hge. apply Hnd.
    destruct returns as [|r rest]; [exact I|].
    inversion Hge as [|? ? Hr Hrest]; subst. cbn.
    apply (nondecreasing_from_compat (1 * (1 + r))); [reflexivity|].
    apply cumprod_from_nondecreasing.
    + rewrite Qmult_1_l.
      apply Qlt_le_trans with 1; [reflexivity|]. setoid_replace 1 with (1 + 0) at 1 by ring.
      apply Qplus_le_r. exact Hr.
    + apply Forall_map. eapply Forall_impl; [|exact Hrest]. intros x Hx.
      setoid_replace 1 with (1 + 0) at 1 by ring. apply Qplus_le_r. exact Hx.
Qed.

Lemma Qeq_bool_sub0 x p : Qeq_bool (x - p) 0 = Qeq_bool p x.
Proof.
  destruct (Qeq_bool p x) eqn:E.
  - apply Qeq_bool_iff in E. apply Qeq_bool_iff. rewrite E. ring.
  - destruct (Qeq_bool (x - p) 0) eqn:E'; [|reflexivity].
    apply Qeq_bool_iff in E'. exfalso.
    assert (H : p == x) by (setoid_replace x with (x - p + p) by ring; rewrite E'; ring).
    apply Qeq_bool_iff in H. congruence.
Qed.

Lemma diff_from_changes (xs : list Q) :
  forall p, length (filter Utils.ne0 (Utils.diff_from p xs)) =
            count_moves (fun a b => negb (Qeq_bool a b)) p xs.
Proof.
  induction xs as [|x xs IH]; intros p; cbn; [reflexivity|].
  rewrite Qeq_bool_sub0. destruct (Qeq_bool p x); cbn; rewrite IH; reflexivity.
Qed.

(** On a non-empty frame, [analyze_win_rate] divides the positive returns by one more than the number of position changes: the NaN first difference counts as a trade. *)
Theorem analyze_win_rate_counts_first_row (strategy_returns position : list Q) :
  position <> [] ->
  Utils.analyze_win_rate strategy_returns position ==
  inject_Z (Z.of_nat (positive_returns strategy_returns)) / inject_Z (Z.of_nat (S (changes position))) * 100.
Proof.
  intros Hne. destruct position as [|p rest]; [contradiction|].
  unfold Utils.analyze_win_rate, changes. cbn [Utils.diff filter Utils.ne0 length].
  rewrite diff_from_changes. reflexivity.
Qed.

Lemma combine_self_map {A B} (f : A -> B) (l : list A) :
  combine l (map f l) = map (fun x => (x, f x)) l.
Proof. induction l as [|x l IH]; cbn; [reflexivity|]. rewrite IH. reflexivity. Qed.

Lemma stop_loss_fires (c pct : Q) :
  0 < c -> negb (Qle_bool (c * (1 - pct)) c) = negb (Qle_bool 0 pct).
Proof.
  intros Hc. f_equal.
  destruct (Qle_bool 0 pct) eqn:E.
  - apply Qle_bool_iff in E. apply Qle_bool_iff.
    apply Qle_minus_iff. setoid_replace (c + - (c * (1 - pct))) with (c * pct) by ring.
    apply Qmult_le_0_compat; [apply Qlt_le_weak|]; assumption.
  - destruct (Qle_bool (c * (1 - pct)) c) eqn:E'; [|reflexivity]. exfalso.
    apply Qle_bool_iff in E'.
    assert (Hp : pct < 0) by (apply Qnot_le_lt; intros H; apply Qle_bool_iff in H; congruence).
    assert (H : 0 < c * - pct) by (apply Qmult_lt_0_compat; [exact Hc|]; 
      setoid_replace 0 with (- 0) by ring; apply Qopp_lt_compat; exact Hp).
    apply Qle_minus_iff in E'. setoid_replace (c + - (c * (1 - pct))) with (- (c * - pct)) in E' by ring.
    apply (Qlt_not_le _ _ H). apply Qopp_le_compat in E'. rewrite Qopp_involutive in E'. exact E'.
Qed.

(** With positive closes, [apply_stop_loss] keeps the first row and sets the Sell signal on every later long row exactly when the stop-loss percentage is negative; it changes no other row. *)
Theorem apply_stop_loss_rows (results : list frame_row) (stop_loss_pct : Q) :
  Forall (fun r => 0 < F_Close r) results ->
  Utils.SL_rows (Utils.apply_stop_loss results stop_loss_pct) =
  match results with
  | [] => []
  | r0 :: rest =>
      r0 :: map (fun r => if (F_Position r =? 1)%Z && negb (Qle_bool 0 stop_loss_pct)
                          then Utils.set_signal r (-1) else r) rest
  end.
Proof.
  intros Hpos. destruct results as [|r0 rest]; [reflexivity|].
  inversion Hpos as [|? ? _ Hrest]; subst.
  unfold Utils.apply_stop_loss. cbn [map Utils.SL_rows].
  rewrite combine_self_map, !map_map. f_equal.
  apply map_ext_in. intros r Hr. rewrite Forall_forall in Hrest.
  unfold Utils.stop_loss_row. rewrite (stop_loss_fires _ _ (Hrest r Hr)).
  destruct (F_Position r =? 1)%Z, (negb (Qle_bool 0 stop_loss_pct)); reflexivity.
Qed.

(** With positive closes, the [Stop_Loss_Triggered] column of [apply_stop_loss] exists only when a row after the first is long, and then holds, on those long rows, whether the percentage is negative. *)
Theorem apply_stop_loss_triggered (results : list frame_row) (stop_loss_pct : Q) :
  Forall (fun r => 0 < F_Close r) results ->
  Utils.Stop_Loss_Triggered (Utils.apply_stop_loss results stop_loss_pct) =
  if existsb (fun r => (F_Position r =? 1)%Z) (tl results)
  then Some (None :: map (fun r => if (F_Position r =? 1)%Z
                                  then Some (negb (Qle_bool 0 stop_loss_pct)) else None) (tl results))
  else None.
Proof.
  intros Hpos. destruct results as [|r0 rest]; [reflexivity|].
  inversion Hpos as [|? ? _ Hrest]; subst. rewrite Forall_forall in Hrest.
  unfold Utils.apply_stop_loss. cbn [map Utils.Stop_Loss_Triggered tl].
  rewrite combine_self_map, !map_map.
  assert (Hm : map (fun x => snd (Utils.stop_loss_row x (F_Close x * (1 - stop_loss_pct)))) rest =
               map (fun r => if (F_Position r =? 1)%Z
                             then Some (negb (Qle_bool 0 stop_loss_pct)) else None) rest).
  { apply map_ext_in. intros r Hr. unfold Utils.stop_loss_row.
    rewrite (stop_loss_fires _ _ (Hrest r Hr)).
    destruct (F_Position r =? 1)%Z; [|reflexivity].
    destruct (negb (Qle_bool 0 stop_loss_pct)); reflexivity. }
  rewrite Hm. cbn [existsb].
  replace (existsb (fun t : option bool => match t with Some _ => true | None => false end)
             (map (fun r => if (F_Position r =? 1)%Z then Some (negb (Qle_bool 0 stop_loss_pct)) else None) rest))
    with (existsb (fun r => (F_Position r =? 1)%Z) rest); [reflexivity|].
  clear. induction rest as [|r rest IH]; cbn; [reflexivity|].
  rewrite IH. destruct (F_Position r =? 1)%Z; reflexivity.
Qed.

Lemma ffill_idem {A} (xs : list (option A)) : forall a, ffill a (ffill a xs) = ffill a xs.
Proof.
  induction xs as [|[v|] xs IH]; intros a; cbn; [reflexivity| |].
  - rewrite IH. reflexivity.
  - destruct a as [v|]; cbn; rewrite IH; reflexivity.
Qed.

Lemma ffill_nth {A} (xs : list (option A)) :
  forall a i, (i < length xs)%nat -> nth_error (ffill a xs) i = Some (last_present a (firstn (S i) xs)).
Proof.
  induction xs as [|x xs IH]; intros a i Hi; cbn in Hi; [lia|].
  destruct i as [|i].
  - destruct x; reflexivity.
  - unfold last_present. cbn [firstn fold_left].
    destruct x as [v|]; cbn [ffill nth_error]; apply IH; lia.
Qed.

(** [preprocess_data] applied twice gives what it gives once. *)
Theorem preprocess_data_idempotent (data : list (list (option Q))) :
  Utils.preprocess_data (Utils.preprocess_data data) = Utils.preprocess_data data.
Proof.
  unfold Utils.preprocess_data. rewrite map_map. apply map_ext. intros col. apply ffill_idem.
Qed.

(** Each cell of [preprocess_data] holds the last value present in its column at or before its row, NaN when there is none. *)
Theorem preprocess_data_cell (data : list (list (option Q))) (j i : nat) (col : list (option Q)) :
  nth_error data j = Some col -> (i < length col)%nat ->
  exists col', nth_error (Utils.preprocess_data data) j = Some col' /\
    nth_error col' i = Some (last_present None (firstn (S i) col)).
Proof.
  intros Hj Hi. unfold Utils.preprocess_data. rewrite nth_error_map, Hj.
  eexists. split; [reflexivity|]. apply ffill_nth. exact Hi.
Qed.

Section UtilsRFacts.
Local Open Scope R_scope.

Lemma sum_nonneg (xs : list R) : Forall (fun x => 0 <= x) xs -> 0 <= Sharpe.sum xs.
Proof.
  induction 1 as [|x xs Hx _ IH]; unfold Sharpe.sum in *; cbn; lra.
Qed.

Lemma sum_nonneg_zero (xs : list R) :
  Forall (fun x => 0 <= x) xs -> Sharpe.sum xs = 0 -> Forall (fun x => x = 0) xs.
Proof.
  induction 1 as [|x xs Hx Hxs IH]; intros Hs; constructor.
  - pose proof (sum_nonneg xs Hxs). unfold Sharpe.sum in *. cbn in Hs. lra.
  - apply IH. pose proof (sum_nonneg xs Hxs). unfold Sharpe.sum in *. cbn in Hs. lra.
Qed.

Lemma sum_zero (xs : list R) : Forall (fun x => x = 0) xs -> Sharpe.sum xs = 0.
Proof.
  induction 1 as [|x xs Hx _ IH]; unfold Sharpe.sum in *; cbn; lra.
Qed.

Lemma downside_sq_nonneg t r : 0 <= Rmin (r - t) 0 ^ 2.
Proof. apply pow2_ge_0. Qed.

Lemma downside_sq_zero t r : Rmin (r - t) 0 ^ 2 = 0 <-> t <= r.
Proof.
  split; intros H.
  - destruct (Rle_dec t r) as [Hle|Hlt]; [exact Hle|].
    rewrite Rmin_left in H by lra. exfalso.
    assert (0 < (r - t) ^ 2) by (simpl; nra). lra.
  - rewrite Rmin_right by lra. ring.
Qed.

(** On a non-empty series, [calculate_sortino_ratio] is infinite exactly when no return is below the target, and otherwise the excess of the mean over the target divided by a positive deviation. *)
Theorem utils_sortino_ratio (returns : list R) (target_return : R) :
  returns <> [] ->
  (Forall (fun r => target_return <= r) returns ->
     UtilsR.calculate_sortino_ratio returns target_return = UtilsR.RPosInf) /\
  (Exists (fun r => r < target_return) returns ->
     exists dd, 0 < dd /\
       UtilsR.calculate_sortino_ratio returns target_return =
       UtilsR.RFin ((Sharpe.mean returns - target_return) / dd)).
Proof.
  intros Hne. destruct returns as [|r0 rest] eqn:Er; [contradiction|]. rewrite <- Er.
  set (sq := map (fun r => Rmin (r - target_return) 0 ^ 2) returns).
  assert (Hsq : Forall (fun x => 0 <= x) sq).
  { apply Forall_map. apply Forall_forall. intros r _. apply downside_sq_nonneg. }
  assert (Hlen : 0 < INR (length sq)) by (unfold sq; rewrite Er; apply lt_0_INR; cbn; lia).
  assert (Hm : 0 <= Sharpe.mean sq).
  { unfold Sharpe.mean. apply Rmult_le_pos; [apply sum_nonneg; exact Hsq|].
    apply Rlt_le, Rinv_0_lt_compat, Hlen. }
  unfold UtilsR.calculate_sortino_ratio. fold sq.
  replace (UtilsR.np_mean sq) with (Some (Sharpe.mean sq)) by (unfold sq; rewrite Er; reflexivity).
  replace (UtilsR.np_mean returns) with (Some (Sharpe.mean returns)) by (rewrite Er; reflexivity).
  split.
  - intros Hall. destruct (Req_dec_T (sqrt (Sharpe.mean sq)) 0) as [E|E]; [reflexivity|].
    exfalso. apply E. unfold Sharpe.mean.
    rewrite sum_zero; [unfold Rdiv; rewrite Rmult_0_l; apply sqrt_0|].
    unfold sq. apply Forall_map. eapply Forall_impl; [|exact Hall].
    intros r Hr. apply downside_sq_zero. exact Hr.
  - intros Hex. destruct (Req_dec_T (sqrt (Sharpe.mean sq)) 0) as [E|E].
    + exfalso. apply sqrt_eq_0 in E; [|exact Hm].
      unfold Sharpe.mean in E.
      assert (Hs : Sharpe.sum sq = 0).
      { apply (Rmult_eq_reg_r (/ INR (length sq))); [|apply Rinv_neq_0_compat; lra].
        unfold Rdiv in E. rewrite E. ring. }
      apply sum_nonneg_zero in Hs; [|exact Hsq].
      unfold sq in Hs. apply Forall_map in Hs.
      apply Exists_exists in Hex as [r [Hin Hr]].
      rewrite Forall_forall in Hs. apply Hs, downside_sq_zero in Hin. lra.
    + exists (sqrt (Sharpe.mean sq)). split.
      * pose proof (sqrt_positivity _ Hm). lra.
      * unfold UtilsR.rdiv. destruct (Req_dec_T (sqrt (Sharpe.mean sq)) 0) as [E'|_]; [contradiction|].
        reflexivity.
Qed.

(** When the deviation of the excess returns is positive, the unguarded [calculate_sharpe_ratio] of the utilities equals the Simulator Sharpe ratio. *)
Theorem utils_sharpe_agrees (returns : list R) (s : R) :
  Sharpe.std (Sharpe.excess_returns returns) = Some s -> 0 < s ->
  UtilsR.calculate_sharpe_ratio returns = UtilsR.RFin (Sharpe.sharpe_ratio returns).
Proof.
  intros Hs Hpos. unfold UtilsR.calculate_sharpe_ratio, Sharpe.sharpe_ratio. rewrite Hs.
  destruct (Rlt_dec 0 s) as [_|H]; [|contradiction].
  assert (Hne : Sharpe.excess_returns returns <> []).
  { intros E. rewrite E in Hs. discriminate. }
  replace (UtilsR.np_mean (Sharpe.excess_returns returns)) with (Some (Sharpe.mean (Sharpe.excess_returns returns)))
    by (destruct (Sharpe.excess_returns returns); [contradiction|reflexivity]).
  unfold UtilsR.rdiv. destruct (Req_dec_T s 0) as [E|_]; [lra|]. reflexivity.
Qed.

(** [calculate_calmar_ratio] raises ZeroDivisionError on an empty series, and is not a finite number when no return is negative. *)
Theorem utils_calmar_ratio (returns : list Q) :
  (returns = [] -> UtilsR.calculate_calmar_ratio returns = None) /\
  (returns <> [] -> Forall (fun r => (0 <= r)%Q) returns ->
   exists v, UtilsR.calculate_calmar_ratio returns = Some v /\ forall x, v <> UtilsR.RFin x).
Proof.
  split; [intros ->; reflexivity|]. intros Hne Hge.
  destruct (utils_max_drawdown returns Hne) as [q [Hq [_ Hz]]].
  { eapply Forall_impl; [|exact Hge]. intros r Hr. apply Qlt_le_trans with 0%Q; [reflexivity|exact Hr]. }
  specialize (Hz Hge).
  unfold UtilsR.calculate_calmar_ratio.
  destruct (length returns) as [|n] eqn:En; [destruct returns; [contradiction|discriminate]|].
  eexists. split; [reflexivity|]. intros x. rewrite Hq. cbn [UtilsR.of_float].
  rewrite (Qeq_eqR q 0 Hz). replace (Q2R 0) with 0 by (unfold Q2R; cbn; ring).
  replace (UtilsR.fdiv (UtilsR.RFin 0) (UtilsR.RFin 100)) with (UtilsR.RFin 0).
  2:{ unfold UtilsR.fdiv, UtilsR.rdiv. destruct (Req_dec_T 100 0); [lra|]. f_equal. field. }
  destruct (UtilsR.fsub1 _) as [a| | |]; cbn; try discriminate.
  - unfold UtilsR.rdiv. destruct (Req_dec_T 0 0) as [_|H]; [|contradiction].
    destruct (Req_dec_T a 0); [discriminate|]. destruct (Rle_dec a 0); discriminate.
  - destruct (Rle_dec 0 0); discriminate.
  - destruct (Rle_dec 0 0); discriminate.
Qed.

End UtilsRFacts.

(** ** C7 (amended) *)

Lemma align_positional (signals prices : list (Z * Q)) :
  NoDup (map fst prices) -> map fst signals = map fst prices ->
  map (fun '((_, s), (_, c)) => (Some s, Some c)) (combine signals prices)
  = map (fun '(t, s) => (Some s, Align.lookup t prices)) signals.
Proof.
  revert prices.
  induction signals as [|[t s] srest IH]; intros [|[t' c] prest] Hnd Hf;
    try discriminate; [reflexivity|].
  cbn [map fst] in Hf. injection Hf as -> Hf.
  cbn [map fst] in Hnd. inversion Hnd as [|? ? Hnin Hnd']; subst.
  cbn [combine map Align.lookup]. rewrite Z.eqb_refl. f_equal.
  rewrite (IH prest Hnd' Hf). apply map_ext_in. intros [t2 s2] Hin.
  cbn [Align.lookup]. destruct (Z.eqb_spec t2 t') as [->|]; [|reflexivity].
  exfalso. apply Hnin. rewrite <- Hf. apply in_map_iff. exists (t', s2). auto.
Qed.

Lemma has_duplicates_NoDup (ts : list Z) : NoDup ts -> Align.has_duplicates ts = false.
Proof.
  induction 1 as [|t ts Hnin Hnd IH]; [reflexivity|]. cbn. rewrite IH, orb_false_r.
  apply not_true_iff_false. intros Hex. apply existsb_exists in Hex as [x [Hx Heq]].
  apply Z.eqb_eq in Heq. subst. contradiction.
Qed.

(** Without a Buy signal the Simulator loop never opens a position: every
    row keeps the fresh values, with no shares and the initial balance. *)
Lemma run_without_buy (cfg : Simulator.config) (inp : list (Q * Q)) :
  forall prev,
  match prev with
  | None => True
  | Some p => Simulator.Shares p = 0 /\ Simulator.Balance p = Simulator.initial_balance cfg
              /\ Simulator.Position p = 0%Z
  end ->
  Forall (fun x => Qeq_bool (fst x) 1 = false) inp ->
  Forall (fun p => Simulator.Shares (snd p) = 0
                   /\ Simulator.Balance (snd p) = Simulator.initial_balance cfg
                   /\ Simulator.Position (snd p) = 0%Z)
    (Simulator.run cfg Simulator.init_state prev inp).
Proof.
  induction inp as [|[s c] rest IH]; intros prev Hprev Hno; [constructor|].
  inversion Hno as [|? ? Hs Hrest]; subst. cbn [fst] in Hs.
  assert (Hrow : Simulator.step cfg Simulator.init_state prev s c
                 = (Simulator.init_state,
                    Simulator.carry_forward cfg prev (Simulator.fresh_row cfg s c))).
  { unfold Simulator.step, Simulator.trade. cbn [Simulator.Signal Simulator.fresh_row].
    rewrite Hs. reflexivity. }
  assert (Hcf : Simulator.Shares (Simulator.carry_forward cfg prev (Simulator.fresh_row cfg s c)) = 0
           /\ Simulator.Balance (Simulator.carry_forward cfg prev (Simulator.fresh_row cfg s c))
              = Simulator.initial_balance cfg
           /\ Simulator.Position (Simulator.carry_forward cfg prev (Simulator.fresh_row cfg s c)) = 0%Z).
  { destruct prev as [p|]; [|repeat split].
    destruct Hprev as [Hsh [Hb Hpos]]. unfold Simulator.carry_forward, Simulator.fresh_row.
    cbn [Simulator.Shares Simulator.Balance Simulator.Position].
    replace (Qeq_bool 0 0) with true by reflexivity.
    rewrite (proj2 (Qeq_bool_iff _ _) (Qeq_refl _)). auto. }
  cbn [Simulator.run]. rewrite Hrow. constructor; [exact Hcf|].
  apply IH; [exact Hcf | exact Hrest].
Qed.

Lemma execute_trade_without_buy (cfg : Simulator.config) (inp : list (Q * Q)) :
  Forall (fun x => ~ fst x == 1) inp ->
  Forall (fun r => Simulator.Shares r == 0 /\ Simulator.Position r = 0%Z
                   /\ Simulator.Portfolio_Value r == Simulator.initial_balance cfg)
    (Simulator.execute_trade cfg inp).
Proof.
  intros Hno.
  assert (Hno' : Forall (fun x => Qeq_bool (fst x) 1 = false) inp).
  { eapply Forall_impl; [|exact Hno]. intros x Hx. apply not_true_iff_false.
    intros E. apply Hx. apply Qeq_bool_iff. exact E. }
  pose proof (run_without_buy cfg inp None I Hno') as Hrun.
  unfold Simulator.execute_trade. apply Forall_map.
  eapply Forall_impl; [|exact Hrun]. intros [st r] H. cbn [snd] in H.
  destruct H as [Hsh [Hb Hpos]].
  cbn [snd Simulator.with_value Simulator.Shares Simulator.Position Simulator.Portfolio_Value].
  rewrite Hsh, Hb, Hpos. split; [reflexivity|]. split; [reflexivity|]. ring.
Qed.

Lemma backtest_without_trade (self : Backtester.backtester) (inp : list (Q * Q)) :
  Forall (fun x => ~ snd x == 0) inp ->
  Forall (fun x => ~ fst x == 1 /\ ~ fst x == -1) inp ->
  Forall (fun r => F_Shares r == 0 /\ exists v, F_Portfolio_Value r = Some v
                                       /\ v == Backtester.initial_balance self)
    (Backtester.backtest self inp).
Proof.
  intros Hnz Hno. apply Forall_forall. intros r Hr.
  apply In_nth_error in Hr as [i Hi].
  assert (Hlt : (i < length inp)%nat).
  { rewrite <- (backtest_length self inp). apply nth_error_Some. rewrite Hi. discriminate. }
  destruct (nth_error inp i) as [[s c]|] eqn:Ei; [|apply nth_error_None in Ei; lia].
  pose proof (nth_error_In _ _ Ei) as Hin. rewrite Forall_forall in Hno.
  destruct (Hno _ Hin) as [H1 Hm1]. cbn [fst] in H1, Hm1.
  destruct (proj1 (backtest_row_values self inp i s c r Hnz Ei Hi) H1 Hm1) as [Hsh [_ Hv]].
  split; [exact Hsh | exact Hv].
Qed.

(** C7 (amended): neither backtest raises an alignment or empty-input
    error.  For a price series with distinct timestamps the frame is built
    without error; it is empty only when both series are.  With signals, it
    has one row per signal timestamp in the signal's order, the close looked
    up by timestamp (NaN, [None], where the prices lack it); price
    timestamps without a signal are dropped.  With no signals, it takes the
    price timestamps with NaN signals; both backtests compare a signal only
    with 1 and -1, which NaN equals neither, so they run as on any signal
    [s0] other than 1 and -1: for positive closes each returns one row per
    price date, holding no shares and worth the initial balance. *)
Theorem C7_alignment_by_label (cfg : Simulator.config) (self : Backtester.backtester)
    (signals prices : list (Z * Q)) :
  NoDup (map fst prices) ->
  exists frame,
    Align.align signals prices = Some frame
    /\ (frame = [] <-> signals = [] /\ prices = [])
    /\ (signals <> [] -> frame = map (fun '(t, s) => (Some s, Align.lookup t prices)) signals)
    /\ (signals = [] ->
          frame = map (fun '(_, c) => (None, Some c)) prices
          /\ forall s0 : Q, ~ s0 == 1 -> ~ s0 == -1 -> Forall (fun x => 0 < snd x) prices ->
             let inp := map (fun '(_, c) => (s0, c)) prices in
             length (Simulator.execute_trade cfg inp) = length prices
             /\ Forall (fun r => Simulator.Shares r == 0 /\ Simulator.Position r = 0%Z
                                 /\ Simulator.Portfolio_Value r == Simulator.initial_balance cfg)
                  (Simulator.execute_trade cfg inp)
             /\ length (Backtester.backtest self inp) = length prices
             /\ Forall (fun r => F_Shares r == 0 /\ exists v, F_Portfolio_Value r = Some v
                                                  /\ v == Backtester.initial_balance self)
                  (Backtester.backtest self inp)).
Proof.
  intros Hnd. destruct signals as [|[t s] srest].
  - exists (map (fun '(_, c) => (None, Some c)) prices). split; [reflexivity|].
    split; [destruct prices; split; intros H; try discriminate; try (destruct H; discriminate);
            auto|].
    split; [intros H; contradiction H; reflexivity|].
    intros _. split; [reflexivity|]. intros s0 H1 Hm1 Hpos. cbv zeta.
    set (inp := map (fun '(_, c) => (s0, c)) prices).
    assert (Hfst : Forall (fun x => ~ fst x == 1 /\ ~ fst x == -1) inp).
    { unfold inp. apply Forall_map. apply Forall_forall. intros [t c] _. auto. }
    assert (Hnz : Forall (fun x => ~ snd x == 0) inp).
    { unfold inp. apply Forall_map. eapply Forall_impl; [|exact Hpos].
      intros [t c] Hc. cbn in *. intros E. rewrite E in Hc. discriminate. }
    assert (Hl : length inp = length prices) by (unfold inp; apply length_map).
    split; [unfold Simulator.execute_trade; rewrite length_map, run_length; exact Hl|].
    split; [apply execute_trade_without_buy; revert Hfst; apply Forall_impl; tauto|].
    split; [rewrite backtest_length; exact Hl|].
    apply backtest_without_trade; assumption.
  - exists (map (fun '(t, s) => (Some s, Align.lookup t prices)) ((t, s) :: srest)).
    split.
    + unfold Align.align. destruct (Align.same_index ((t, s) :: srest) prices) eqn:E.
      * unfold Align.same_index in E.
        destruct (list_eq_dec Z.eq_dec (map fst ((t, s) :: srest)) (map fst prices))
          as [Heq|]; [|discriminate].
        rewrite (align_positional _ _ Hnd Heq). reflexivity.
      * rewrite (has_duplicates_NoDup _ Hnd). reflexivity.
    + split; [split; intros H; [discriminate | destruct H; discriminate]|].
      split; [reflexivity|]. intros H; discriminate.
Qed.

(** * Witnesses *)

Lemma portfolio_buy_fill_witness :
  Portfolio.position (fst (Portfolio.execute_trade (Portfolio.init 10000 10) 100 1)) = 1%Z
  /\ Portfolio.balance (fst (Portfolio.execute_trade (Portfolio.init 10000 10) 100 1)) < 100.
Proof.
  destruct (portfolio_buy_fill (Portfolio.init 10000 10) 100 eq_refl eq_refl) as [[_ Hfill] Hrest].
  assert (H : Portfolio.position (fst (Portfolio.execute_trade (Portfolio.init 10000 10) 100 1)) = 1%Z)
    by (apply Hfill; apply Qle_bool_iff; reflexivity).
  split; [exact H | apply (proj2 (Hrest H))].
Defined.

Lemma portfolio_trade_accounting_witness :
  Portfolio.rep_total_value (snd (Portfolio.execute_trade (Portfolio.init 10000 10) 100 1)) == 9990.
Proof.
  destruct (portfolio_trade_accounting (Portfolio.init 10000 10) 100 1 eq_refl
              (or_introl (conj eq_refl eq_refl))) as [[E _]|[_ H]].
  - apply (f_equal Portfolio.position) in E. vm_compute in E. discriminate E.
  - rewrite H. vm_compute. reflexivity.
Defined.

Lemma portfolio_round_trip_witness :
  Portfolio.rep_balance
    (last (Portfolio.execute_trades (Portfolio.init 10000 10) [(100, 1); (103, 0); (110, -1)])
       (Portfolio.mkReport 0 0 0 0)) == 10970.
Proof.
  destruct (portfolio_round_trip (Portfolio.init 10000 10) 100 110 [(103, 0)] eq_refl eq_refl eq_refl
              ltac:(apply Qle_bool_iff; reflexivity)
              ltac:(repeat constructor)) as [Hb _].
  cbv zeta in Hb. rewrite Hb. vm_compute. reflexivity.
Defined.

Lemma simulator_ignores_sell_signals_witness :
  map without_signal (Simulator.execute_trade default_simulator [(1, 100); (-1, 103); (0, 97)])
  = map without_signal (Simulator.execute_trade default_simulator [(1, 100); (0, 103); (0, 97)]).
Proof. apply simulator_ignores_sell_signals; reflexivity. Defined.

Lemma backtester_cumulative_returns_witness :
  Forall2 (fun c x => c == x / 100) (Returns.Backtester_Cumulative_Returns [100; 110; 99]) [100; 110; 99].
Proof. apply (backtester_cumulative_returns [100; 110; 99]). repeat constructor. Defined.

Lemma simulator_cumulative_returns_witness :
  let pv := map Simulator.Portfolio_Value
              (Simulator.execute_trade default_simulator [(1, 100); (0, 103); (-1, 97)]) in
  Forall2 (fun c v => c == v / hd 0 pv - 1) (Returns.Cumulative_Returns pv) pv.
Proof.
  apply simulator_cumulative_returns;
    [apply Qle_bool_iff; reflexivity | reflexivity | repeat constructor].
Defined.

Lemma backtester_row_values_witness :
  exists r, nth_error (Backtester.backtest (Backtester.mkBacktester 10000 10)
                         [(0, 100); (1, 100); (-1, 110)]) 2 = Some r
    /\ exists v, F_Portfolio_Value r = Some v /\ v == 10000 + 9990 / 100 * 110 - 10.
Proof.
  assert (Hr : exists r, nth_error (Backtester.backtest (Backtester.mkBacktester 10000 10)
                         [(0, 100); (1, 100); (-1, 110)]) 2 = Some r)
    by (eexists; vm_compute; reflexivity).
  destruct Hr as [r Hr]. exists r. split; [exact Hr|].
  assert (Hnz : Forall (fun x : Q * Q => ~ snd x == 0) [(0, 100); (1, 100); (-1, 110)])
    by (repeat constructor; cbn; intros H; discriminate H).
  pose proof (backtester_row_values (Backtester.mkBacktester 10000 10)
                [(0, 100); (1, 100); (-1, 110)] 2 (-1) 110 r Hnz eq_refl Hr) as H.
  cbv zeta in H. destruct H as [_ [_ [_ H]]].
  exact (proj2 (H 1%nat 1 100 eq_refl eq_refl eq_refl)).
Defined.

Lemma backtester_total_return_witness :
  opt_Qeq (BacktesterMetrics.total_return (Returns.Strategy_Cumulative_Returns 10000 [10000; 9990; 10100]))
          (Metrics.total_return 10000 [10000; 9990; 10100]).
Proof. apply backtester_total_return. intros H. discriminate H. Defined.

Lemma backtester_max_drawdown_witness :
  feq (BacktesterMetrics.max_drawdown (Returns.Strategy_Cumulative_Returns 10000 [10000; 9000; 9500]))
      (Metrics.max_drawdown [10000; 9000; 9500]).
Proof. apply backtester_max_drawdown. reflexivity. Defined.

Lemma utils_max_drawdown_witness :
  exists q, Utils.calculate_max_drawdown [1 # 10; -1 # 10; 0] = Metrics.Fin q /\ q <= 0.
Proof.
  destruct (utils_max_drawdown [1 # 10; -1 # 10; 0] ltac:(discriminate) ltac:(repeat constructor))
    as [q [Hq [Hle _]]].
  exists q. split; assumption.
Defined.

Lemma analyze_win_rate_counts_first_row_witness :
  Utils.analyze_win_rate [0; 1 # 100; 2 # 100] [1; 1; 1] == 200.
Proof.
  rewrite (analyze_win_rate_counts_first_row [0; 1 # 100; 2 # 100] [1; 1; 1] ltac:(discriminate)).
  vm_compute. reflexivity.
Defined.


Lemma apply_stop_loss_rows_witness :
  Utils.SL_rows (Utils.apply_stop_loss falling_long_rows (5 # 100)) = falling_long_rows.
Proof.
  rewrite (apply_stop_loss_rows falling_long_rows (5 # 100) ltac:(repeat constructor)).
  reflexivity.
Defined.

Lemma apply_stop_loss_triggered_witness :
  Utils.Stop_Loss_Triggered (Utils.apply_stop_loss falling_long_rows (5 # 100))
  = Some [None; Some false; Some false].
Proof.
  rewrite (apply_stop_loss_triggered falling_long_rows (5 # 100) ltac:(repeat constructor)).
  reflexivity.
Defined.

Lemma preprocess_data_cell_witness :
  exists col', nth_error (Utils.preprocess_data [[Some 1; None; Some 3]]) 0 = Some col'
    /\ nth_error col' 1 = Some (Some 1).
Proof. apply (preprocess_data_cell [[Some 1; None; Some 3]] 0 1 [Some 1; None; Some 3]); [reflexivity | cbn; lia]. Defined.

Lemma crossover_warm_up_witness :
  nth_error (Strategies.moving_average_crossover [1; 2; 3; 4] 1 3) 1 = Some 0.
Proof. apply crossover_warm_up; cbn; lia. Defined.

Lemma triple_ma_agrees_with_crossover_witness :
  nth_error (Strategies.moving_average_crossover [1; 2; 3; 4; 5; 6] 1 3) 5 = Some 1.
Proof.
  apply (triple_ma_agrees_with_crossover [1; 2; 3; 4; 5; 6] 1 2 3 5 1).
  - vm_compute. reflexivity.
  - intros H. discriminate H.
Defined.

Section UtilsRWitnesses.
Local Open Scope R_scope.

Lemma utils_sortino_ratio_witness :
  exists dd, 0 < dd /\
    UtilsR.calculate_sortino_ratio [1 / 100; -1 / 100] 0
    = UtilsR.RFin ((Sharpe.mean [1 / 100; -1 / 100] - 0) / dd).
Proof.
  apply (proj2 (utils_sortino_ratio [1 / 100; -1 / 100] 0 ltac:(discriminate))).
  apply Exists_cons_tl, Exists_cons_hd. lra.
Defined.

Lemma utils_sharpe_agrees_witness :
  UtilsR.calculate_sharpe_ratio [0; 1 / 100] = UtilsR.RFin (Sharpe.sharpe_ratio [0; 1 / 100]).
Proof.
  apply (utils_sharpe_agrees [0; 1 / 100]
           (match Sharpe.std (Sharpe.excess_returns [0; 1 / 100]) with Some s => s | None => 0 end));
    [reflexivity|].
  unfold Sharpe.std, Sharpe.excess_returns, Sharpe.mean, Sharpe.sum. cbn.
  apply sqrt_lt_R0. unfold Sharpe.risk_free_rate. field_simplify; lra.
Defined.

End UtilsRWitnesses.

Lemma C7_witness :
  exists frame,
    Align.align [] prices_example = Some frame
    /\ (frame = [] <-> [] = @nil (Z * Q) /\ prices_example = [])
    /\ ([] <> @nil (Z * Q) ->
          frame = map (fun '(t, s) => (Some s, Align.lookup t prices_example)) [])
    /\ ([] = @nil (Z * Q) ->
          frame = map (fun '(_, c) => (None, Some c)) prices_example
          /\ forall s0 : Q, ~ s0 == 1 -> ~ s0 == -1 -> Forall (fun x => 0 < snd x) prices_example ->
             let inp := map (fun '(_, c) => (s0, c)) prices_example in
             length (Simulator.execute_trade default_simulator inp) = length prices_example
             /\ Forall (fun r => Simulator.Shares r == 0 /\ Simulator.Position r = 0%Z
                                 /\ Simulator.Portfolio_Value r
                                    == Simulator.initial_balance default_simulator)
                  (Simulator.execute_trade default_simulator inp)
             /\ length (Backtester.backtest (Backtester.mkBacktester 10000 10) inp)
                = length prices_example
             /\ Forall (fun r => F_Shares r == 0 /\ exists v, F_Portfolio_Value r = Some v
                                   /\ v == Backtester.initial_balance (Backtester.mkBacktester 10000 10))
                  (Backtester.backtest (Backtester.mkBacktester 10000 10) inp)).
Proof.
  apply (C7_alignment_by_label default_simulator (Backtester.mkBacktester 10000 10) [] prices_example).
  repeat constructor; cbn; intuition discriminate.
Defined.

